(** * TravelFun: the user store ([src/stores/user.ts])

    A shallow embedding of the Pinia store [useUserStore] and the
    properties of its operations.  The store keeps three reactive cells
    ([userInfo], [loginStatus], [isLoading]) and mirrors the first two into
    [localStorage], [sessionStorage] and [document.cookie].  The browser
    objects are modelled as part of an explicit world that every operation
    threads through; each access to them is also recorded in a trace, so
    that "does not read" and "does not write" are statements about the
    events an operation adds.  A [setItem] may exceed the quota of its
    storage area and throw; what the operations do then is part of the
    properties. *)

From Stdlib Require Import ZArith String Ascii List Lia DecimalString.
From stdpp Require Import base option gmap strings.

#[local] Set Warnings "-register-all".

Open Scope string_scope.
Open Scope Z_scope.

Module UserStore.

(** ** JavaScript values

    [userInfo] is typed [UserInfo | null], but the value restored by
    [initializeUserState] is whatever [JSON.parse] returns, so the cell
    holds an arbitrary JSON value.  [null] and [undefined] are both
    [JNull]: the code only ever tests them by truthiness. *)

Inductive JsVal : Type :=
| JNull
| JBool (b : bool)
| JNum (n : Z)
| JStr (s : string)
| JArr (items : list JsVal)
| JObj (fields : list (string * JsVal)).

(** Truthiness of a string: every string but the empty one. *)
Definition str_truthy (s : string) : bool :=
  match s with
  | EmptyString => false
  | String _ _ => true
  end.

(** JavaScript's ToBoolean on the values above. *)
Definition truthy (v : JsVal) : bool :=
  match v with
  | JNull => false
  | JBool b => b
  | JNum n => negb (n =? 0)
  | JStr s => str_truthy s
  | JArr _ => true
  | JObj _ => true
  end.

(** [interface UserInfo] (lines 7-15); the three optional fields are
    options. *)
Record UserInfo : Type := {
  id : Z;
  username : string;
  email : string;
  full_name : string;
  avatar : option string;
  last_login : option string;
  updated_at : option string
}.

Definition opt_field (k : string) (o : option string) : list (string * JsVal) :=
  match o with
  | Some s => [(k, JStr s)]
  | None => []
  end.

(** A [UserInfo] object as a JavaScript value: always an object, hence
    always truthy. *)
Definition user_val (u : UserInfo) : JsVal :=
  JObj ([("id", JNum (id u)); ("username", JStr (username u));
         ("email", JStr (email u)); ("full_name", JStr (full_name u))]
        ++ opt_field "avatar" (avatar u)
        ++ opt_field "last_login" (last_login u)
        ++ opt_field "updated_at" (updated_at u)).

(** ** The platform

    [JSON.parse], [JSON.stringify] and [Date.prototype.toUTCString] are
    builtins of the JavaScript runtime, not code of the store, and so is the
    quota of a storage area: [storage_fits sc m] tells whether the area [sc]
    may hold the content [m]; a [setItem] that would leave a content that
    does not fit throws [QuotaExceededError] and changes nothing.  The store
    is verified against any implementation of them; the only fact used is
    that the empty string is not a JSON text.  [JSON_parse s = None] stands
    for the [SyntaxError] that [JSON.parse] throws. *)

Inductive Scope : Type := LocalStorage | SessionStorage.

Class Platform : Type := {
  JSON_parse : string -> option JsVal;
  JSON_stringify : JsVal -> string;
  toUTCString : Z -> string;
  storage_fits : Scope -> gmap string string -> bool;
  JSON_parse_empty : JSON_parse EmptyString = None
}.

(** ** The world *)

Inductive Event : Type :=
| EConsole (msg : string)
| EGetItem (sc : Scope) (key : string)
| ESetItem (sc : Scope) (key value : string)
| ERemoveItem (sc : Scope) (key : string)
| ECookie (assignment : string)
| EApi (name : string)
| ENotify (msg : string)
| ENavigate (path : string)
| ESleep (ms : Z).

Record World : Type := mkWorld {
  userInfo : JsVal;
  loginStatus : bool;
  isLoading : bool;
  localStorage : gmap string string;
  sessionStorage : gmap string string;
  trace : list Event
}.

(** ** Computations: state, exceptions *)

Inductive Error : Type :=
| SyntaxError
| QuotaExceededError
| ApiFailure (msg : string).

Inductive Outcome (A : Type) : Type :=
| Returned (a : A)
| Thrown (e : Error).
Arguments Returned {A} a.
Arguments Thrown {A} e.

Definition M (A : Type) : Type := World -> Outcome A * World.

Definition ret {A} (a : A) : M A := fun w => (Returned a, w).

Definition throw {A} (e : Error) : M A := fun w => (Thrown e, w).

Definition bind {A B} (m : M A) (k : A -> M B) : M B :=
  fun w =>
    match m w with
    | (Returned a, w') => k a w'
    | (Thrown e, w') => (Thrown e, w')
    end.

Notation "x <- m ;; k" := (bind m (fun x => k))
  (at level 100, m at next level, right associativity).
Notation "m ;; k" := (bind m (fun _ => k))
  (at level 100, right associativity).

(** [try { body } catch (error) { handler error }] *)
Definition try_catch {A} (body : M A) (handler : Error -> M A) : M A :=
  fun w =>
    match body w with
    | (Returned a, w') => (Returned a, w')
    | (Thrown e, w') => handler e w'
    end.

(** [try { body } finally { fin }], for a [fin] that does not throw or
    return. *)
Definition try_finally {A} (body : M A) (fin : M unit) : M A :=
  fun w =>
    match body w with
    | (r, w') =>
        match fin w' with
        | (Returned _, w'') => (r, w'')
        | (Thrown e, w'') => (Thrown e, w'')
        end
    end.

Definition result {A} (m : M A) (w : World) : Outcome A := fst (m w).
Definition after {A} (m : M A) (w : World) : World := snd (m w).

(** ** Primitive effects *)

Definition emit (e : Event) : M unit :=
  fun w => (Returned tt,
            mkWorld (userInfo w) (loginStatus w) (isLoading w)
                    (localStorage w) (sessionStorage w) (trace w ++ [e])).

Definition console (msg : string) : M unit := emit (EConsole msg).

Definition set_userInfo (v : JsVal) : M unit :=
  fun w => (Returned tt,
            mkWorld v (loginStatus w) (isLoading w)
                    (localStorage w) (sessionStorage w) (trace w)).

Definition set_loginStatus (b : bool) : M unit :=
  fun w => (Returned tt,
            mkWorld (userInfo w) b (isLoading w)
                    (localStorage w) (sessionStorage w) (trace w)).

Definition set_isLoading (b : bool) : M unit :=
  fun w => (Returned tt,
            mkWorld (userInfo w) (loginStatus w) b
                    (localStorage w) (sessionStorage w) (trace w)).

Definition storage (sc : Scope) (w : World) : gmap string string :=
  match sc with
  | LocalStorage => localStorage w
  | SessionStorage => sessionStorage w
  end.

Definition with_storage (sc : Scope) (f : gmap string string -> gmap string string)
    (w : World) : World :=
  match sc with
  | LocalStorage =>
      mkWorld (userInfo w) (loginStatus w) (isLoading w)
              (f (localStorage w)) (sessionStorage w) (trace w)
  | SessionStorage =>
      mkWorld (userInfo w) (loginStatus w) (isLoading w)
              (localStorage w) (f (sessionStorage w)) (trace w)
  end.

(** [storage.getItem(key)]: the value, or [null] ([None]). *)
Definition getItem (sc : Scope) (key : string) : M (option string) :=
  emit (EGetItem sc key) ;;
  fun w => (Returned (storage sc w !! key), w).

(** [storage.removeItem(key)] *)
Definition removeItem (sc : Scope) (key : string) : M unit :=
  emit (ERemoveItem sc key) ;;
  fun w => (Returned tt, with_storage sc (delete key) w).

(** [document.cookie = assignment] *)
Definition set_cookie (assignment : string) : M unit := emit (ECookie assignment).

(** ** The collaborators in [utils/api], [vue-router]

    Modelled from the spec: the response types of [apiUserSignin] and
    [apiUserCheckSignin], which are declared in [utils/api] (section 6:
    [{success, data: {token, refresh?, user}}] and
    [{success, isAuthenticated, user?}]). *)
Record SigninData : Type := {
  token : string;
  refresh : option string;
  user : UserInfo
}.

Record SigninResponse : Type := {
  success : bool;
  data_of : SigninData
}.

Record CheckResponse : Type := {
  check_success : bool;
  isAuthenticated : bool;
  checked_user : option UserInfo
}.

(** The argument of [signin]: [{username, password, rememberMe?}]. *)
Record SigninRequest : Type := {
  signin_username : string;
  signin_password : string;
  rememberMe : option bool
}.

Definition flag_truthy (o : option bool) : bool :=
  match o with
  | Some b => b
  | None => false
  end.

(** What an awaited call does: the promise resolves to a value, or the
    [await] throws. *)
Inductive ApiResult (A : Type) : Type :=
| Resolved (a : A)
| Rejected (e : Error).
Arguments Resolved {A} a.
Arguments Rejected {A} e.

Definition call_api {A} (name : string) (r : ApiResult A) : M A :=
  emit (EApi name) ;;
  match r with
  | Resolved a => ret a
  | Rejected e => throw e
  end.

(** A call that is not awaited: it returns (its promise then resolves or
    rejects), or throws before returning. *)
Inductive Detached : Type :=
| Resolves
| Rejects (e : Error)
| Throws (e : Error).

(** A synchronous external call: [None] returns, [Some e] throws [e]. *)
Definition call_ext (ev : Event) (r : option Error) : M unit :=
  emit ev ;;
  match r with
  | None => ret tt
  | Some e => throw e
  end.

Section Store.

Context `{P : Platform}.

(** [storage.setItem(key, value)]: the write, or [QuotaExceededError] when
    the area cannot hold the resulting content. *)
Definition setItem (sc : Scope) (key value : string) : M unit :=
  emit (ESetItem sc key value) ;;
  fun w =>
    if storage_fits sc (<[key := value]> (storage sc w))
    then (Returned tt, with_storage sc (insert key value) w)
    else (Thrown QuotaExceededError, w).

(** ** [displayName] (lines 24-26)

    [v?.k] on the values above: the own property [k] of an object, the
    binding written last when a key occurs twice (as [JSON.parse] builds
    objects), absent for [null] and for a value that has no such property.
    It is used for the keys [full_name] and [username] only. *)
Fixpoint assoc_last (k : string) (fields : list (string * JsVal)) : option JsVal :=
  match fields with
  | [] => None
  | (k', x) :: rest =>
      match assoc_last k rest with
      | Some y => Some y
      | None => if String.eqb k k' then Some x else None
      end
  end.

Definition get_prop (k : string) (v : JsVal) : JsVal :=
  match v with
  | JObj fields => default JNull (assoc_last k fields)
  | _ => JNull
  end.

(** [a || b] *)
Definition js_or (a b : JsVal) : JsVal := if truthy a then a else b.

Definition displayName (w : World) : JsVal :=
  js_or (js_or (get_prop "full_name" (userInfo w))
               (get_prop "username" (userInfo w)))
        (JStr EmptyString).

(** [JSON.parse(text)], throwing on a text that is not JSON. *)
Definition parse (text : string) : M JsVal :=
  match JSON_parse text with
  | Some v => ret v
  | None => throw SyntaxError
  end.

(** ** [updateUserState] (lines 29-46) *)
Definition updateUserState (user : JsVal) (status : bool) : M unit :=
  console "Updating user state:" ;;
  set_userInfo user ;;
  set_loginStatus status ;;
  if truthy user then
    setItem LocalStorage "userInfo" (JSON_stringify user) ;;
    setItem LocalStorage "loginStatus" "true" ;;
    setItem SessionStorage "userInfo" (JSON_stringify user) ;;
    setItem SessionStorage "loginStatus" "true"
  else
    removeItem LocalStorage "userInfo" ;;
    removeItem LocalStorage "loginStatus" ;;
    removeItem SessionStorage "userInfo" ;;
    removeItem SessionStorage "loginStatus".

(** ** [initializeUserState] (lines 49-83)

    The [return] inside the first [try] is the flag that the first block
    hands to the rest of the function. *)
Definition is_true_flag (o : option string) : bool :=
  match o with
  | Some s => String.eqb s "true"
  | None => false
  end.

Definition item_truthy (o : option string) : bool :=
  match o with
  | Some s => str_truthy s
  | None => false
  end.

Definition item_text (o : option string) : string :=
  match o with
  | Some s => s
  | None => EmptyString
  end.

Definition initializeUserState : M unit :=
  console "Initializing user state" ;;
  sessionUserInfo <- getItem SessionStorage "userInfo" ;;
  sessionLoginStatus <- getItem SessionStorage "loginStatus" ;;
  returned <-
    (if item_truthy sessionUserInfo && is_true_flag sessionLoginStatus then
       try_catch
         (parsedUserInfo <- parse (item_text sessionUserInfo) ;;
          updateUserState parsedUserInfo true ;;
          console "User state initialized from sessionStorage" ;;
          ret true)
         (fun error =>
            console "Error parsing session user info:" ;;
            ret false)
     else ret false) ;;
  if (returned : bool) then ret tt
  else
    localUserInfo <- getItem LocalStorage "userInfo" ;;
    localLoginStatus <- getItem LocalStorage "loginStatus" ;;
    if item_truthy localUserInfo && is_true_flag localLoginStatus then
      try_catch
        (parsedUserInfo <- parse (item_text localUserInfo) ;;
         updateUserState parsedUserInfo true ;;
         console "User state initialized from localStorage")
        (fun error =>
           console "Error parsing stored user info:" ;;
           removeItem LocalStorage "userInfo" ;;
           removeItem LocalStorage "loginStatus")
    else
      updateUserState JNull false.

(** ** [signin] (lines 86-131)

    [api] is what [await apiUserSignin(...)] does, [now] is [Date.now()]. *)
Definition signin (data : SigninRequest) (api : ApiResult SigninResponse)
    (now : Z) : M bool :=
  console "Signing in..." ;;
  set_isLoading true ;;
  try_finally
    (try_catch
       (res <- call_api "apiUserSignin" api ;;
        let responseData := res in
        console "Sign in response:" ;;
        if success responseData then
          let expires :=
            if flag_truthy (rememberMe data)
            then toUTCString (now + 30 * 24 * 60 * 60 * 1000)
            else EmptyString in
          set_cookie ("token=" +:+ token (data_of responseData)
                      +:+ ";path=/;expires=" +:+ expires) ;;
          (if item_truthy (refresh (data_of responseData)) then
             set_cookie ("refresh_token=" +:+ item_text (refresh (data_of responseData))
                         +:+ ";path=/;expires=" +:+ expires)
           else ret tt) ;;
          updateUserState (user_val (user (data_of responseData))) true ;;
          setItem SessionStorage "userInfo"
                  (JSON_stringify (user_val (user (data_of responseData)))) ;;
          setItem SessionStorage "loginStatus" "true" ;;
          emit (ESleep 100) ;;
          console "User state updated after sign in" ;;
          ret true
        else ret false)
       (fun error =>
          console "Login failed:" ;;
          throw error))
    (set_isLoading false).

(** ** [checkLoginStatus] (lines 134-153) *)
Definition checkLoginStatus (api : ApiResult CheckResponse) : M bool :=
  try_catch
    (response <- call_api "apiUserCheckSignin" api ;;
     set_loginStatus (isAuthenticated response) ;;
     (match isAuthenticated response, checked_user response with
      | true, Some user => set_userInfo (user_val user)
      | _, _ => set_userInfo JNull
      end) ;;
     ret (isAuthenticated response))
    (fun error =>
       console "檢查登入狀態時發生錯誤:" ;;
       set_loginStatus false ;;
       set_userInfo JNull ;;
       ret false).

(** ** [setLoginStatus] (lines 156-159); [user = None] is the omitted
    argument, which takes the default [null]. *)
Definition setLoginStatus (status : bool) (user : option JsVal) : M unit :=
  let user := default JNull user in
  set_loginStatus status ;;
  set_userInfo user.

(** ** [logout] (lines 162-189)

    [api] is what the unawaited [apiUserLogout()] does; its rejection
    handler only logs, and the model runs it at the call.  [notify] and
    [navigate] are what [successMsg] and [router.push] do. *)
Definition fire (name : string) (r : Detached) : M unit :=
  emit (EApi name) ;;
  match r with
  | Resolves => ret tt
  | Rejects _ =>
      console "Backend logout API call failed, but local logout successful"
  | Throws e => throw e
  end.

Definition logout (api : Detached) (notify navigate : option Error) : M bool :=
  console "Logging out..." ;;
  try_catch
    (updateUserState JNull false ;;
     set_cookie "token=;expires=Thu, 01 Jan 1970 00:00:00 GMT;path=/" ;;
     set_cookie "refresh_token=;expires=Thu, 01 Jan 1970 00:00:00 GMT;path=/" ;;
     set_cookie "sessionid=;expires=Thu, 01 Jan 1970 00:00:00 GMT;path=/" ;;
     fire "apiUserLogout" api ;;
     call_ext (ENotify "已成功登出") notify ;;
     call_ext (ENavigate "/") navigate ;;
     ret true)
    (fun error =>
       console "Local logout process completed" ;;
       ret true).

(** ** The store's setup function (lines 17-21, 192): fresh cells, then
    [initializeUserState] on whatever the two storages hold. *)
Definition fresh (ls ss : gmap string string) : World :=
  mkWorld JNull false false ls ss [].

Definition useUserStore (ls ss : gmap string string) : Outcome unit * World :=
  initializeUserState (fresh ls ss).

End Store.

(** ** A platform to run the store on

    An executable JSON codec, date printer and storage quota, used to run
    the store on concrete storage contents.  The codec covers [null],
    booleans, integers, strings with the two-character escapes, arrays and
    objects; a text with a fraction, an exponent or a [\u] escape is
    rejected, as is anything that is not JSON.  An area fits when the
    characters of its keys and values are no more than a capacity, the same
    for both scopes. *)
Module Browser.

Definition dquote : ascii := ascii_of_nat 34.
Definition backslash : ascii := ascii_of_nat 92.

Definition dec (n : Z) : string := NilZero.string_of_int (Z.to_int n).

Definition escape_char (c : ascii) : string :=
  if Ascii.eqb c dquote then String backslash (String dquote EmptyString)
  else if Ascii.eqb c backslash then String backslash (String backslash EmptyString)
  else if Ascii.eqb c (ascii_of_nat 10) then String backslash "n"
  else if Ascii.eqb c (ascii_of_nat 13) then String backslash "r"
  else if Ascii.eqb c (ascii_of_nat 9) then String backslash "t"
  else String c EmptyString.

Fixpoint escape (s : string) : string :=
  match s with
  | EmptyString => EmptyString
  | String c r => escape_char c +:+ escape r
  end.

Definition quote (s : string) : string :=
  String dquote (escape s +:+ String dquote EmptyString).

Fixpoint join (sep : string) (l : list string) : string :=
  match l with
  | [] => EmptyString
  | [x] => x
  | x :: r => x +:+ sep +:+ join sep r
  end.

Fixpoint stringify (v : JsVal) : string :=
  match v with
  | JNull => "null"
  | JBool true => "true"
  | JBool false => "false"
  | JNum n => dec n
  | JStr s => quote s
  | JArr items => "[" +:+ join "," (map stringify items) +:+ "]"
  | JObj fields =>
      "{" +:+ join "," (map (fun '(k, x) => quote k +:+ ":" +:+ stringify x) fields)
      +:+ "}"
  end.

Definition is_ws (c : ascii) : bool :=
  let n := nat_of_ascii c in
  Nat.eqb n 32 || Nat.eqb n 9 || Nat.eqb n 10 || Nat.eqb n 13.

Definition is_digit (c : ascii) : bool :=
  let n := nat_of_ascii c in Nat.leb 48 n && Nat.leb n 57.

Fixpoint skip_ws (s : string) : string :=
  match s with
  | String c r => if is_ws c then skip_ws r else s
  | EmptyString => s
  end.

Fixpoint strip_prefix (p s : string) : option string :=
  match p, s with
  | EmptyString, _ => Some s
  | String a p', String b s' => if Ascii.eqb a b then strip_prefix p' s' else None
  | String _ _, EmptyString => None
  end.

Fixpoint digits (acc : Z) (s : string) : Z * string :=
  match s with
  | String c r =>
      if is_digit c then digits (10 * acc + (Z.of_nat (nat_of_ascii c) - 48)) r
      else (acc, s)
  | EmptyString => (acc, s)
  end.

Definition starts_with (f : ascii -> bool) (s : string) : bool :=
  match s with
  | String c _ => f c
  | EmptyString => false
  end.

Definition is_frac_or_exp (c : ascii) : bool :=
  Ascii.eqb c "." || Ascii.eqb c "e" || Ascii.eqb c "E".

(** An optional sign, then [0] or a digit string without a leading zero;
    not followed by a fraction or an exponent. *)
Definition parse_natural (s : string) : option (Z * string) :=
  match s with
  | String c r =>
      if Ascii.eqb c "0" then
        if starts_with is_digit r || starts_with is_frac_or_exp r then None
        else Some (0, r)
      else if is_digit c then
        let '(n, rest) := digits 0 s in
        if starts_with is_frac_or_exp rest then None else Some (n, rest)
      else None
  | EmptyString => None
  end.

Definition parse_number (s : string) : option (Z * string) :=
  match s with
  | String c r =>
      if Ascii.eqb c "-" then
        '(n, rest) ← parse_natural r; Some (- n, rest)
      else parse_natural s
  | EmptyString => None
  end.

Definition unescape (c : ascii) : option ascii :=
  if Ascii.eqb c dquote then Some dquote
  else if Ascii.eqb c backslash then Some backslash
  else if Ascii.eqb c "/" then Some "/"%char
  else if Ascii.eqb c "n" then Some (ascii_of_nat 10)
  else if Ascii.eqb c "r" then Some (ascii_of_nat 13)
  else if Ascii.eqb c "t" then Some (ascii_of_nat 9)
  else if Ascii.eqb c "b" then Some (ascii_of_nat 8)
  else if Ascii.eqb c "f" then Some (ascii_of_nat 12)
  else None.

(** The characters of a string literal, after its opening quote. *)
Fixpoint parse_chars (s : string) : option (string * string) :=
  match s with
  | EmptyString => None
  | String c r =>
      if Ascii.eqb c dquote then Some (EmptyString, r)
      else if Ascii.eqb c backslash then
        match r with
        | String e r' =>
            c' ← unescape e;
            '(str, rest) ← parse_chars r';
            Some (String c' str, rest)
        | EmptyString => None
        end
      else if Nat.ltb (nat_of_ascii c) 32 then None
      else '(str, rest) ← parse_chars r; Some (String c str, rest)
  end.

Definition expect (c : ascii) (s : string) : option string :=
  match skip_ws s with
  | String c' r => if Ascii.eqb c c' then Some r else None
  | EmptyString => None
  end.

Section Composite.

Variable parse_value : string -> option (JsVal * string).

(** The elements of a non-empty array, after [[]. *)
Fixpoint parse_elements (fuel : nat) (s : string) : option (list JsVal * string) :=
  match fuel with
  | O => None
  | S fuel =>
      '(x, rest) ← parse_value s;
      match skip_ws rest with
      | String c r =>
          if Ascii.eqb c "," then
            '(xs, rest') ← parse_elements fuel r; Some (x :: xs, rest')
          else if Ascii.eqb c "]" then Some ([x], r)
          else None
      | EmptyString => None
      end
  end.

(** The members of a non-empty object, after [{]. *)
Fixpoint parse_members (fuel : nat) (s : string)
    : option (list (string * JsVal) * string) :=
  match fuel with
  | O => None
  | S fuel =>
      s1 ← expect dquote s;
      '(k, s2) ← parse_chars s1;
      s3 ← expect ":" s2;
      '(x, rest) ← parse_value s3;
      match skip_ws rest with
      | String c r =>
          if Ascii.eqb c "," then
            '(kxs, rest') ← parse_members fuel r; Some ((k, x) :: kxs, rest')
          else if Ascii.eqb c "}" then Some ([(k, x)], r)
          else None
      | EmptyString => None
      end
  end.

End Composite.

Fixpoint parse_value (fuel : nat) (s : string) : option (JsVal * string) :=
  match fuel with
  | O => None
  | S fuel =>
      match skip_ws s with
      | EmptyString => None
      | String c r as t =>
          if Ascii.eqb c "n" then rest ← strip_prefix "null" t; Some (JNull, rest)
          else if Ascii.eqb c "t" then rest ← strip_prefix "true" t; Some (JBool true, rest)
          else if Ascii.eqb c "f" then rest ← strip_prefix "false" t; Some (JBool false, rest)
          else if Ascii.eqb c dquote then
            '(str, rest) ← parse_chars r; Some (JStr str, rest)
          else if Ascii.eqb c "[" then
            match expect "]" r with
            | Some rest => Some (JArr [], rest)
            | None => '(xs, rest) ← parse_elements (parse_value fuel) fuel r;
                      Some (JArr xs, rest)
            end
          else if Ascii.eqb c "{" then
            match expect "}" r with
            | Some rest => Some (JObj [], rest)
            | None => '(kxs, rest) ← parse_members (parse_value fuel) fuel r;
                      Some (JObj kxs, rest)
            end
          else '(n, rest) ← parse_number t; Some (JNum n, rest)
      end
  end.

Definition parse_text (s : string) : option JsVal :=
  '(v, rest) ← parse_value (S (String.length s)) s;
  match skip_ws rest with
  | EmptyString => Some v
  | String _ _ => None
  end.

(** [new Date(ms).toUTCString()], for a date of the common era. *)
Definition two (n : Z) : string :=
  if n <? 10 then "0" +:+ dec n else dec n.

Definition four (n : Z) : string :=
  if n <? 10 then "000" +:+ dec n
  else if n <? 100 then "00" +:+ dec n
  else if n <? 1000 then "0" +:+ dec n
  else dec n.

Definition day_name (d : Z) : string :=
  nth (Z.to_nat d) ["Sun"; "Mon"; "Tue"; "Wed"; "Thu"; "Fri"; "Sat"] EmptyString.

Definition month_name (m : Z) : string :=
  nth (Z.to_nat (m - 1))
      ["Jan"; "Feb"; "Mar"; "Apr"; "May"; "Jun";
       "Jul"; "Aug"; "Sep"; "Oct"; "Nov"; "Dec"] EmptyString.

(** Day number since 1970-01-01 to (year, month, day). *)
Definition civil (days : Z) : Z * Z * Z :=
  let z := days + 719468 in
  let era := z / 146097 in
  let doe := z - era * 146097 in
  let yoe := (doe - doe / 1460 + doe / 36524 - doe / 146096) / 365 in
  let doy := doe - (365 * yoe + yoe / 4 - yoe / 100) in
  let mp := (5 * doy + 2) / 153 in
  let d := doy - (153 * mp + 2) / 5 + 1 in
  let m := if mp <? 10 then mp + 3 else mp - 9 in
  let y := yoe + era * 400 + (if m <=? 2 then 1 else 0) in
  (y, m, d).

Definition utc_string (ms : Z) : string :=
  let days := ms / 86400000 in
  let secs := (ms mod 86400000) / 1000 in
  let '(y, m, d) := civil days in
  day_name ((days + 4) mod 7) +:+ ", " +:+ two d +:+ " " +:+ month_name m
  +:+ " " +:+ four y +:+ " " +:+ two (secs / 3600) +:+ ":"
  +:+ two ((secs / 60) mod 60) +:+ ":" +:+ two (secs mod 60) +:+ " GMT".

Definition area_size (m : gmap string string) : Z :=
  map_fold (fun k x n => n + Z.of_nat (String.length k) + Z.of_nat (String.length x))
           0 m.

Definition within (capacity : Z) (sc : Scope) (m : gmap string string) : bool :=
  area_size m <=? capacity.

Definition platform_of (capacity : Z) : Platform := {|
  JSON_parse := parse_text;
  JSON_stringify := stringify;
  toUTCString := utc_string;
  storage_fits := within capacity;
  JSON_parse_empty := eq_refl
|}.

(** Five mebi-characters for each area. *)
#[global] Instance platform : Platform := platform_of (5 * 1024 * 1024).

End Browser.

(** ** Vocabulary of the properties *)

(** The events an operation adds to the trace. *)
Definition emitted {A} (m : M A) (w : World) : list Event :=
  drop (length (trace w)) (trace (after m w)).

(** The assignments to [document.cookie] among some events, in order. *)
Fixpoint cookie_writes (evs : list Event) : list string :=
  match evs with
  | [] => []
  | ECookie a :: r => a :: cookie_writes r
  | _ :: r => cookie_writes r
  end.

(** The [setItem] and [removeItem] calls among some events. *)
Definition is_storage_write (e : Event) : bool :=
  match e with
  | ESetItem _ _ _ => true
  | ERemoveItem _ _ => true
  | _ => false
  end.

Definition storage_writes (evs : list Event) : list Event :=
  filter (fun e => is_storage_write e = true) evs.

(** The [getItem] calls on one scope. *)
Definition is_read_of (sc : Scope) (e : Event) : bool :=
  match e, sc with
  | EGetItem LocalStorage _, LocalStorage => true
  | EGetItem SessionStorage _, SessionStorage => true
  | _, _ => false
  end.

Definition reads_of (sc : Scope) (evs : list Event) : list Event :=
  filter (fun e => is_read_of sc e = true) evs.

Section Vocabulary.

Context `{P : Platform}.

(** What a scope holds as a restorable mirror: the parsed ['userInfo'] text
    when it parses and ['loginStatus'] is ['true']. *)
Definition valid_mirror (m : gmap string string) : option JsVal :=
  match m !! "userInfo", m !! "loginStatus" with
  | Some s, Some f => if String.eqb f "true" then JSON_parse s else None
  | _, _ => None
  end.

(** What [updateUserState(v, _)] makes of a storage. *)
Definition mirror_after (v : JsVal) (m : gmap string string) : gmap string string :=
  if truthy v
  then <["loginStatus" := "true"]> (<["userInfo" := JSON_stringify v]> m)
  else delete "loginStatus" (delete "userInfo" m).

(** The cookie expiry of a sign-in: thirty days of 86400000 ms after [now]
    when [rememberMe] is set, no expiry otherwise. *)
Definition signin_expiry (data : SigninRequest) (now : Z) : string :=
  match rememberMe data with
  | Some true => toUTCString (now + 30 * 86400000)
  | _ => EmptyString
  end.

Definition refresh_cookies (res : SigninResponse) (expires : string) : list string :=
  match refresh (data_of res) with
  | None => []
  | Some EmptyString => []
  | Some r => ["refresh_token=" +:+ r +:+ ";path=/;expires=" +:+ expires]
  end.

(** A page reload builds a new store on the storages as they are; a
    browser restart does so with the session scope emptied. *)
Definition reload (w : World) : World :=
  (useUserStore (localStorage w) (sessionStorage w)).2.

Definition restart (w : World) : World :=
  (useUserStore (localStorage w) ∅).2.

(** The two keys of the persisted mirror. *)
Definition is_mirror_key (k : string) : bool :=
  String.eqb k "userInfo" || String.eqb k "loginStatus".

(** A storage call on a mirror key, writing nothing but ['true'] under
    ['loginStatus']; events that are no storage calls pass. *)
Definition mirror_access (e : Event) : bool :=
  match e with
  | EGetItem _ k => is_mirror_key k
  | ERemoveItem _ k => is_mirror_key k
  | ESetItem _ k x =>
      String.eqb k "userInfo" || (String.eqb k "loginStatus" && String.eqb x "true")
  | _ => true
  end.

(** Console output and storage calls, as opposed to cookies, API calls,
    notifications, navigation and delays. *)
Definition is_console_or_storage (e : Event) : bool :=
  match e with
  | EConsole _ => true
  | EGetItem _ _ => true
  | ESetItem _ _ _ => true
  | ERemoveItem _ _ => true
  | _ => false
  end.

(** A computation keeps a relation between the world it starts in and the
    world it ends in, whether it returns or throws. *)
Definition preserves (R : World -> World -> Prop) {A} (m : M A) : Prop :=
  forall w, R w (after m w).

(** The trace grows by events that all pass [good]. *)
Definition emits (good : Event -> bool) (w w' : World) : Prop :=
  exists evs : list Event,
    trace w' = (trace w ++ evs)%list /\ forallb good evs = true.

(** Every storage key other than the two mirror keys holds what it held. *)
Definition keeps_other_keys (w w' : World) : Prop :=
  forall k, is_mirror_key k = false ->
    localStorage w' !! k = localStorage w !! k /\
    sessionStorage w' !! k = sessionStorage w !! k.

Definition keeps_isLoading (w w' : World) : Prop := isLoading w' = isLoading w.

(** The public operations, with what the environment answers to each. *)
Inductive Op : Type :=
| OpSignin (data : SigninRequest) (api : ApiResult SigninResponse) (now : Z)
| OpLogout (api : Detached) (notify navigate : option Error)
| OpCheckLoginStatus (api : ApiResult CheckResponse)
| OpSetLoginStatus (status : bool) (user : option JsVal)
| OpUpdateUserState (user : JsVal) (status : bool)
| OpInitializeUserState.

Definition run (o : Op) (w : World) : World :=
  match o with
  | OpSignin data api now => after (signin data api now) w
  | OpLogout api notify navigate => after (logout api notify navigate) w
  | OpCheckLoginStatus api => after (checkLoginStatus api) w
  | OpSetLoginStatus status user => after (setLoginStatus status user) w
  | OpUpdateUserState user status => after (updateUserState user status) w
  | OpInitializeUserState => after initializeUserState w
  end.

(** The states of a store: set up on some storage contents, then driven by
    operations that [ok] admits. *)
Inductive reachable (ok : World -> Op -> Prop) : World -> Prop :=
| reach_setup (ls ss : gmap string string) :
    ok (fresh ls ss) OpInitializeUserState ->
    reachable ok (run OpInitializeUserState (fresh ls ss))
| reach_step (w : World) (o : Op) :
    reachable ok w -> ok w o -> reachable ok (run o w).

Definition any_call (w : World) (o : Op) : Prop := True.

Definition present (v : JsVal) : Prop := v <> JNull.

(** The four writes of [updateUserState(v, _)] fit the two areas, one after
    the other; nothing is written for a falsy [v]. *)
Definition can_mirror (v : JsVal) (ls ss : gmap string string) : bool :=
  negb (truthy v) ||
  (storage_fits LocalStorage (<["userInfo" := JSON_stringify v]> ls) &&
   storage_fits LocalStorage
     (<["loginStatus" := "true"]> (<["userInfo" := JSON_stringify v]> ls)) &&
   storage_fits SessionStorage (<["userInfo" := JSON_stringify v]> ss) &&
   storage_fits SessionStorage
     (<["loginStatus" := "true"]> (<["userInfo" := JSON_stringify v]> ss))).

(** Lines 66-82 of [initializeUserState]: the part that consults the
    persistent scope. *)
Definition restore_from_local : M unit :=
  localUserInfo <- getItem LocalStorage "userInfo" ;;
  localLoginStatus <- getItem LocalStorage "loginStatus" ;;
  if item_truthy localUserInfo && is_true_flag localLoginStatus then
    try_catch
      (parsedUserInfo <- parse (item_text localUserInfo) ;;
       updateUserState parsedUserInfo true ;;
       console "User state initialized from localStorage")
      (fun error =>
         console "Error parsing stored user info:" ;;
         removeItem LocalStorage "userInfo" ;;
         removeItem LocalStorage "loginStatus")
  else
    updateUserState JNull false.

(** Lines 50-53, and the world in which line 67 starts after the [catch]
    of lines 61-63 ran. *)
Definition session_reads : M unit :=
  console "Initializing user state" ;;
  getItem SessionStorage "userInfo" ;;
  getItem SessionStorage "loginStatus" ;;
  ret tt.

Definition after_session_catch (body : M unit) (w : World) : World :=
  after (console "Error parsing session user info:")
        (after body (after session_reads w)).

(** The value that [initializeUserState] takes from storage is falsy: the
    valid session mirror; or the valid persistent mirror when that one is
    consulted, which is when there is no valid session mirror, and when a
    write of the session restore fails (the persistent scope is then read
    as those writes left it). *)
Definition adopts_falsy (w : World) : Prop :=
  exists v, truthy v = false /\
    match valid_mirror (sessionStorage w) with
    | Some vs =>
        vs = v \/
        (result (updateUserState vs true) w <> Returned tt /\
         valid_mirror (localStorage (after (updateUserState vs true) w)) = Some v)
    | None => valid_mirror (localStorage w) = Some v
    end.

(** Calls that do not pair an authenticated flag with an absent user. *)
Definition consistent_call (w : World) (o : Op) : Prop :=
  match o with
  | OpSignin _ _ _ => True
  | OpLogout _ _ _ => True
  | OpCheckLoginStatus (Resolved r) =>
      isAuthenticated r = true -> checked_user r <> None
  | OpCheckLoginStatus (Rejected _) => True
  | OpSetLoginStatus status user =>
      status = true -> truthy (default JNull user) = true
  | OpUpdateUserState user status => status = true -> truthy user = true
  | OpInitializeUserState => ~ adopts_falsy w
  end.

(** The invariant of section 3 of the specification; a user is present
    when the value is truthy, the test of lines 35 and 140. *)
Definition authenticated_has_user (w : World) : Prop :=
  loginStatus w = true -> truthy (userInfo w) = true.

(** The events one operation adds. *)
Definition events_of (o : Op) (w : World) : list Event :=
  drop (length (trace w)) (trace (run o w)).

(** The operations that set the cells from a response or from storage. *)
Definition synchronizing_call (w : World) (o : Op) : Prop :=
  match o with
  | OpSignin _ _ _ => True
  | OpLogout _ _ _ => True
  | OpCheckLoginStatus _ => True
  | OpInitializeUserState => True
  | OpSetLoginStatus _ _ => False
  | OpUpdateUserState _ _ => False
  end.

(** The converse of the invariant. *)
Definition user_is_authenticated (w : World) : Prop :=
  present (userInfo w) -> loginStatus w = true.

End Vocabulary.

(** ** Reduction of store computations *)

Ltac run_store :=
  cbv [emitted after result fst snd useUserStore fresh run
       restore_from_local session_reads after_session_catch
       initializeUserState updateUserState signin logout checkLoginStatus
       setLoginStatus parse call_api call_ext fire
       getItem setItem removeItem set_cookie console emit
       set_userInfo set_loginStatus set_isLoading storage with_storage
       bind ret throw try_catch try_finally
       userInfo loginStatus isLoading localStorage sessionStorage trace].

(** Computations are reduced on a world given by its six components, so
    that every projection of an intermediate world reduces away. *)
Ltac open_world w :=
  destruct w as [? ? ? ? ? ?];
  cbn [userInfo loginStatus isLoading localStorage sessionStorage trace] in *.

Ltac new_events :=
  rewrite <- ?app_assoc; rewrite ?drop_app_length; cbn [app].

Ltac run_all := repeat (run_store; new_events).

(** Splits a goal [preserves R m] along the structure of [m], down to the
    primitive effects. *)
Ltac as_preserves :=
  lazymatch goal with
  | |- forall w, ?R w (after ?m w) => change (preserves R m)
  | |- preserves _ _ => idtac
  end.

Ltac split_preserves rules :=
  as_preserves;
  cbv [initializeUserState updateUserState signin logout checkLoginStatus
       setLoginStatus parse call_api call_ext fire getItem setItem removeItem
       set_cookie console];
  repeat first
    [ rules
    | match goal with
      | |- preserves _ (match ?x with _ => _ end) => destruct x
      end
    | progress cbv beta zeta
    | lazymatch goal with
      | |- forall _, preserves _ _ => intro
      end ];
  lazymatch goal with
  | |- preserves _ _ => intro
  end.

(** Cases on the quota tests that a reduced run is stuck on. *)
Ltac split_fits :=
  repeat match goal with
  | |- context [if storage_fits ?s ?m then _ else _] =>
      let E := fresh "Hfit" in
      destruct (storage_fits s m) eqn:E; run_store
  end.

Ltac init_step :=
  run_store;
  cbn [item_truthy is_true_flag item_text str_truthy andb
       String.eqb Ascii.eqb Bool.eqb].

(** ** Examples of values *)

Definition amy : UserInfo :=
  {| id := 7; username := "amy"; email := "amy@example.org";
     full_name := "Amy Lin"; avatar := None;
     last_login := Some "2024-05-01"; updated_at := None |}.

Definition amy_text : string := Browser.stringify (user_val amy).

Definition mirror_of (text : string) : gmap string string :=
  <["loginStatus" := "true"]> (<["userInfo" := text]> ∅).

(** A platform with a quota of 200 characters for each area, and a
    persistent area that holds 155 of them already: within the quota, with
    no room left for a mirror of [amy]. *)
Definition cramped : Platform := Browser.platform_of 200.

Fixpoint padding (n : nat) : string :=
  match n with
  | O => EmptyString
  | S n => String "x" (padding n)
  end.

Definition crowded : gmap string string := <["cache" := padding 150]> ∅.

Definition remember_amy : SigninRequest :=
  {| signin_username := "amy"; signin_password := "secret";
     rememberMe := Some true |}.

Definition amy_response : SigninResponse :=
  {| success := true;
     data_of := {| token := "t0k3n"; refresh := None; user := amy |} |}.

Definition plain_amy : SigninRequest :=
  {| signin_username := "amy"; signin_password := "secret";
     rememberMe := None |}.

Definition amy_session : CheckResponse :=
  {| check_success := true; isAuthenticated := true; checked_user := Some amy |}.

Definition blank_refresh : SigninResponse :=
  {| success := true;
     data_of := {| token := "t0k3n"; refresh := Some EmptyString; user := amy |} |}.

Definition refused : SigninResponse :=
  {| success := false;
     data_of := {| token := EmptyString; refresh := None; user := amy |} |}.

(** ** Properties of [updateUserState] *)

(** ** Properties of [updateUserState] *)

Section Properties.

Context `{P : Platform}.

Lemma user_val_truthy (u : UserInfo) : truthy (user_val u) = true.
Proof. reflexivity. Qed.

Lemma updateUserState_cells (user : JsVal) (status : bool) (w : World) :
  userInfo (after (updateUserState user status) w) = user /\
  loginStatus (after (updateUserState user status) w) = status /\
  isLoading (after (updateUserState user status) w) = isLoading w.
Proof.
  open_world w. run_store. destruct (truthy user); split_fits; auto.
Qed.

Lemma updateUserState_returns_iff (user : JsVal) (status : bool) (w : World) :
  result (updateUserState user status) w = Returned tt <->
  can_mirror user (localStorage w) (sessionStorage w) = true.
Proof.
  open_world w. unfold can_mirror. run_store.
  destruct (truthy user); cbn [negb orb]; split_fits; cbn [andb];
    split; intros H; reflexivity || discriminate H.
Qed.

Lemma updateUserState_falsy (user : JsVal) (status : bool) (w : World) :
  truthy user = false ->
  result (updateUserState user status) w = Returned tt /\
  localStorage (after (updateUserState user status) w)
    = delete "loginStatus" (delete "userInfo" (localStorage w)) /\
  sessionStorage (after (updateUserState user status) w)
    = delete "loginStatus" (delete "userInfo" (sessionStorage w)).
Proof. intros Hu. open_world w. run_store. rewrite Hu. auto. Qed.

Lemma can_mirror_truthy (v : JsVal) (ls ss : gmap string string) :
  truthy v = true -> can_mirror v ls ss = true ->
  storage_fits LocalStorage (<["userInfo" := JSON_stringify v]> ls) = true /\
  storage_fits LocalStorage
    (<["loginStatus" := "true"]> (<["userInfo" := JSON_stringify v]> ls)) = true /\
  storage_fits SessionStorage (<["userInfo" := JSON_stringify v]> ss) = true /\
  storage_fits SessionStorage
    (<["loginStatus" := "true"]> (<["userInfo" := JSON_stringify v]> ss)) = true.
Proof.
  unfold can_mirror. intros ->. cbn [negb orb].
  intros [[[H1 H2]%andb_true_iff H3]%andb_true_iff H4]%andb_true_iff. auto.
Qed.

Lemma updateUserState_truthy (user : JsVal) (status : bool) (w : World) :
  truthy user = true ->
  result (updateUserState user status) w = Returned tt ->
  localStorage (after (updateUserState user status) w)
    = <["loginStatus" := "true"]> (<["userInfo" := JSON_stringify user]> (localStorage w)) /\
  sessionStorage (after (updateUserState user status) w)
    = <["loginStatus" := "true"]> (<["userInfo" := JSON_stringify user]> (sessionStorage w)).
Proof.
  intros Hu Hr. apply updateUserState_returns_iff in Hr.
  destruct (can_mirror_truthy _ _ _ Hu Hr) as (H1 & H2 & H3 & H4).
  open_world w. run_store. rewrite Hu. run_store.
  rewrite H1. run_store. rewrite H2. run_store. rewrite H3. run_store.
  rewrite H4. auto.
Qed.

(** The outcome and the storages that [updateUserState] leaves depend on
    the storages it starts from only. *)
Lemma updateUserState_on_storages (user : JsVal) (s1 s2 : bool) (w1 w2 : World) :
  localStorage w1 = localStorage w2 ->
  sessionStorage w1 = sessionStorage w2 ->
  result (updateUserState user s1) w1 = result (updateUserState user s2) w2 /\
  localStorage (after (updateUserState user s1) w1)
    = localStorage (after (updateUserState user s2) w2) /\
  sessionStorage (after (updateUserState user s1) w1)
    = sessionStorage (after (updateUserState user s2) w2).
Proof.
  open_world w1. open_world w2. intros -> ->. run_store.
  destruct (truthy user); split_fits; auto.
Qed.

Lemma written_mirror (m : gmap string string) (text : string) :
  <["loginStatus" := "true"]> (<["userInfo" := text]> m) !! "userInfo" = Some text /\
  <["loginStatus" := "true"]> (<["userInfo" := text]> m) !! "loginStatus" = Some "true".
Proof. split; by simplify_map_eq. Qed.

Lemma removed_mirror (m : gmap string string) :
  delete "loginStatus" (delete "userInfo" m) !! "userInfo" = None /\
  delete "loginStatus" (delete "userInfo" m) !! "loginStatus" = None.
Proof. split; by simplify_map_eq. Qed.

(** C1, as amended.  A call [updateUserState(u, status)] with a user object
    [u] that returns (none of its four writes exceeds a quota) leaves,
    whatever [status] is, the serialized [u] under ['userInfo'] and ['true']
    under ['loginStatus'] in both storages; a call
    [updateUserState(null, status)] always returns and leaves none of the
    four keys. *)
Theorem updateUserState_writes_both_scopes
    (u : UserInfo) (status : bool) (w : World) :
  (result (updateUserState (user_val u) status) w = Returned tt ->
   let w' := after (updateUserState (user_val u) status) w in
   localStorage w' !! "userInfo" = Some (JSON_stringify (user_val u)) /\
   localStorage w' !! "loginStatus" = Some "true" /\
   sessionStorage w' !! "userInfo" = Some (JSON_stringify (user_val u)) /\
   sessionStorage w' !! "loginStatus" = Some "true") /\
  (let w' := after (updateUserState JNull status) w in
   result (updateUserState JNull status) w = Returned tt /\
   localStorage w' !! "userInfo" = None /\
   localStorage w' !! "loginStatus" = None /\
   sessionStorage w' !! "userInfo" = None /\
   sessionStorage w' !! "loginStatus" = None).
Proof.
  split; [intros Hr|]; cbv zeta.
  - destruct (updateUserState_truthy (user_val u) status w (user_val_truthy u) Hr)
      as [-> ->].
    destruct (written_mirror (localStorage w) (JSON_stringify (user_val u))).
    destruct (written_mirror (sessionStorage w) (JSON_stringify (user_val u))).
    auto.
  - destruct (updateUserState_falsy JNull status w eq_refl) as (Hr & -> & ->).
    destruct (removed_mirror (localStorage w)).
    destruct (removed_mirror (sessionStorage w)).
    auto.
Qed.

(** ** Properties of [signin] *)

Lemma rewritten_userInfo (m : gmap string string) (text flag : string) :
  <["userInfo" := text]> (<["loginStatus" := flag]> (<["userInfo" := text]> m))
  = <["loginStatus" := flag]> (<["userInfo" := text]> m).
Proof. apply map_eq. intros k. destruct (decide (k = "userInfo")); by simplify_map_eq. Qed.

Lemma rewritten_flag (m : gmap string string) (flag : string) :
  <["loginStatus" := flag]> (<["loginStatus" := flag]> m) = <["loginStatus" := flag]> m.
Proof. apply insert_insert_eq. Qed.

Lemma signin_success_run (data : SigninRequest) (res : SigninResponse)
    (now : Z) (w : World) :
  success res = true ->
  result (updateUserState (user_val (user (data_of res))) true) w = Returned tt ->
  let u := user_val (user (data_of res)) in
  let text := JSON_stringify u in
  let written m := <["loginStatus" := "true"]> (<["userInfo" := text]> m) in
  result (signin data (Resolved res) now) w = Returned true /\
  userInfo (after (signin data (Resolved res) now) w) = u /\
  loginStatus (after (signin data (Resolved res) now) w) = true /\
  isLoading (after (signin data (Resolved res) now) w) = false /\
  localStorage (after (signin data (Resolved res) now) w) = written (localStorage w) /\
  sessionStorage (after (signin data (Resolved res) now) w)
    = written (sessionStorage w) /\
  cookie_writes (emitted (signin data (Resolved res) now) w)
    = ("token=" +:+ token (data_of res) +:+ ";path=/;expires="
       +:+ signin_expiry data now)
      :: refresh_cookies res (signin_expiry data now).
Proof.
  intros Hs Hr. cbv zeta. unfold signin_expiry, refresh_cookies.
  apply updateUserState_returns_iff in Hr.
  destruct (can_mirror_truthy _ _ _ (user_val_truthy _) Hr) as (H1 & H2 & H3 & H4).
  open_world w. run_store. rewrite Hs, user_val_truthy.
  destruct (rememberMe data) as [[|]|], (refresh (data_of res)) as [[|c r]|];
    cbn [flag_truthy item_truthy item_text str_truthy];
    run_store; rewrite H1; run_store; rewrite H2; run_store; rewrite H3;
    run_store; rewrite H4; run_store;
    rewrite !rewritten_userInfo, H4; run_store;
    rewrite !rewritten_flag, H4; run_all;
    repeat split; reflexivity.
Qed.

(** The cells after a successful response, whether or not the writes that
    follow succeed. *)
Lemma signin_success_cells (data : SigninRequest) (res : SigninResponse)
    (now : Z) (w : World) :
  success res = true ->
  userInfo (after (signin data (Resolved res) now) w) = user_val (user (data_of res)) /\
  loginStatus (after (signin data (Resolved res) now) w) = true /\
  isLoading (after (signin data (Resolved res) now) w) = false.
Proof.
  intros Hs. open_world w. run_store. rewrite Hs, user_val_truthy.
  destruct (refresh (data_of res)) as [[|c r]|];
    cbn [item_truthy item_text str_truthy];
    run_store; split_fits; auto.
Qed.

(** C3, as amended.  On a response with [success = true], when the writes
    of [updateUserState] succeed (none exceeds a quota), [signin] assigns
    the cookie [token=<token>;path=/;expires=<e>], where [<e>] is the UTC
    string of thirty days after now when [rememberMe] is true and is empty
    otherwise; it assigns [refresh_token=<refresh>;path=/;expires=<e>] next
    when the response has a (non-empty) refresh value and no other cookie,
    none when the response has no refresh value; it leaves the returned
    user in [userInfo] with [loginStatus = true], both storages holding the
    serialized user and ['true'], [isLoading = false]; and it returns
    [true]. *)
Theorem signin_success (data : SigninRequest) (res : SigninResponse)
    (now : Z) (w : World) :
  success res = true ->
  result (updateUserState (user_val (user (data_of res))) true) w = Returned tt ->
  let u := user_val (user (data_of res)) in
  let w' := after (signin data (Resolved res) now) w in
  let expires :=
    if decide (rememberMe data = Some true)
    then toUTCString (now + 30 * 86400000) else EmptyString in
  let token_cookie := "token=" +:+ token (data_of res) +:+ ";path=/;expires=" +:+ expires in
  result (signin data (Resolved res) now) w = Returned true /\
  (exists rest,
      cookie_writes (emitted (signin data (Resolved res) now) w) = token_cookie :: rest /\
      (refresh (data_of res) = None -> rest = []) /\
      (forall r, refresh (data_of res) = Some r -> r <> EmptyString ->
         rest = ["refresh_token=" +:+ r +:+ ";path=/;expires=" +:+ expires])) /\
  userInfo w' = u /\
  loginStatus w' = true /\
  isLoading w' = false /\
  localStorage w' !! "userInfo" = Some (JSON_stringify u) /\
  localStorage w' !! "loginStatus" = Some "true" /\
  sessionStorage w' !! "userInfo" = Some (JSON_stringify u) /\
  sessionStorage w' !! "loginStatus" = Some "true".
Proof.
  intros Hs Hw. cbv zeta.
  destruct (signin_success_run data res now w Hs Hw)
    as (Hr & Hu & Hl & Hi & Hls & Hss & Hc).
  cbv zeta in Hls, Hss.
  assert (He : (if decide (rememberMe data = Some true)
                then toUTCString (now + 30 * 86400000) else EmptyString)
               = signin_expiry data now).
  { unfold signin_expiry. destruct (rememberMe data) as [[|]|];
      case_decide; congruence. }
  rewrite He, Hls, Hss.
  split; [exact Hr|]. split.
  - exists (refresh_cookies res (signin_expiry data now)).
    split; [exact Hc|]. unfold refresh_cookies. split.
    + intros ->. reflexivity.
    + intros r -> Hne. destruct r; [contradiction | reflexivity].
  - split; [exact Hu|]. split; [exact Hl|]. split; [exact Hi|].
    destruct (written_mirror (localStorage w)
                (JSON_stringify (user_val (user (data_of res))))).
    destruct (written_mirror (sessionStorage w)
                (JSON_stringify (user_val (user (data_of res))))).
    auto.
Qed.

Lemma signin_failure_run (data : SigninRequest) (res : SigninResponse)
    (now : Z) (w : World) :
  success res = false ->
  signin data (Resolved res) now w
  = (Returned false,
     mkWorld (userInfo w) (loginStatus w) false (localStorage w) (sessionStorage w)
       (trace w ++ [EConsole "Signing in..."; EApi "apiUserSignin";
                    EConsole "Sign in response:"])).
Proof.
  intros Hs. open_world w. run_store. rewrite Hs. rewrite <- !app_assoc.
  reflexivity.
Qed.

(** C4.  On a response with [success = false], [signin] returns [false];
    [userInfo], [loginStatus] and both storages are what they were, no
    cookie is assigned and no storage call is made, and [isLoading] is
    [false] afterwards. *)
Theorem signin_failure_response (data : SigninRequest) (res : SigninResponse)
    (now : Z) (w : World) :
  success res = false ->
  let w' := after (signin data (Resolved res) now) w in
  result (signin data (Resolved res) now) w = Returned false /\
  userInfo w' = userInfo w /\
  loginStatus w' = loginStatus w /\
  localStorage w' = localStorage w /\
  sessionStorage w' = sessionStorage w /\
  cookie_writes (emitted (signin data (Resolved res) now) w) = [] /\
  storage_writes (emitted (signin data (Resolved res) now) w) = [] /\
  isLoading w' = false.
Proof.
  intros Hs. cbv zeta. unfold emitted, after, result.
  rewrite (signin_failure_run data res now w Hs).
  cbn [fst snd userInfo loginStatus isLoading localStorage sessionStorage trace].
  new_events. repeat split; reflexivity.
Qed.

(** A rejected sign-in call is rethrown, with [isLoading] reset. *)
Lemma signin_rethrows (data : SigninRequest) (e : Error) (now : Z) (w : World) :
  result (signin data (Rejected e) now) w = Thrown e /\
  isLoading (after (signin data (Rejected e) now) w) = false.
Proof. open_world w. run_store. split; reflexivity. Qed.

(** ** Properties of [logout] *)

(** C5.  Whatever the sign-out call does (its promise resolves or rejects,
    or the call throws), and whatever the notification and the navigation
    do, [logout] returns [true] and throws nothing; afterwards [userInfo] is
    [null], [loginStatus] is [false], none of the four storage keys is
    left, and the cookies assigned are exactly the three expiries of
    [token], [refresh_token] and [sessionid]. *)
Theorem logout_always_succeeds
    (api : Detached) (notify navigate : option Error) (w : World) :
  let w' := after (logout api notify navigate) w in
  result (logout api notify navigate) w = Returned true /\
  userInfo w' = JNull /\
  loginStatus w' = false /\
  localStorage w' !! "userInfo" = None /\
  localStorage w' !! "loginStatus" = None /\
  sessionStorage w' !! "userInfo" = None /\
  sessionStorage w' !! "loginStatus" = None /\
  cookie_writes (emitted (logout api notify navigate) w)
    = ["token=;expires=Thu, 01 Jan 1970 00:00:00 GMT;path=/";
       "refresh_token=;expires=Thu, 01 Jan 1970 00:00:00 GMT;path=/";
       "sessionid=;expires=Thu, 01 Jan 1970 00:00:00 GMT;path=/"].
Proof.
  cbv zeta.
  open_world w.
  match goal with
  | ls : gmap string string, ss : gmap string string |- _ =>
      destruct (removed_mirror ls) as [Hl1 Hl2];
      destruct (removed_mirror ss) as [Hs1 Hs2]
  end.
  cbv [logout updateUserState]. cbn [truthy].
  destruct api, notify, navigate; run_all;
    repeat split; assumption || reflexivity.
Qed.

(** ** Properties of [checkLoginStatus] and [setLoginStatus] *)

(** C6.  [checkLoginStatus] never throws; when the session-check call
    throws it returns [false] with [loginStatus = false] and
    [userInfo = null]; when the call answers, it returns the answer's
    [isAuthenticated]. *)
Theorem checkLoginStatus_never_throws :
  (forall (api : ApiResult CheckResponse) (w : World),
      exists b, result (checkLoginStatus api) w = Returned b) /\
  (forall (e : Error) (w : World),
      result (checkLoginStatus (Rejected e)) w = Returned false /\
      loginStatus (after (checkLoginStatus (Rejected e)) w) = false /\
      userInfo (after (checkLoginStatus (Rejected e)) w) = JNull) /\
  (forall (r : CheckResponse) (w : World),
      result (checkLoginStatus (Resolved r)) w = Returned (isAuthenticated r)).
Proof.
  assert (Hok : forall (r : CheckResponse) (w : World),
             result (checkLoginStatus (Resolved r)) w = Returned (isAuthenticated r)).
  { intros r w. open_world w. run_store.
    destruct (isAuthenticated r), (checked_user r); reflexivity. }
  split; [|split].
  - intros [r|e] w.
    + exists (isAuthenticated r). apply Hok.
    + exists false. reflexivity.
  - intros e w. open_world w. run_store. repeat split; reflexivity.
  - exact Hok.
Qed.

(** What [checkLoginStatus] leaves in the cells when the call answers. *)
Lemma checkLoginStatus_cells (r : CheckResponse) (w : World) :
  loginStatus (after (checkLoginStatus (Resolved r)) w) = isAuthenticated r /\
  userInfo (after (checkLoginStatus (Resolved r)) w)
    = match isAuthenticated r, checked_user r with
      | true, Some u => user_val u
      | _, _ => JNull
      end.
Proof.
  open_world w. run_store.
  destruct (isAuthenticated r), (checked_user r); split; reflexivity.
Qed.

(** C7.  [checkLoginStatus] and [setLoginStatus] leave both storages as
    they were, make no [setItem] or [removeItem] call and assign no
    cookie. *)
Theorem check_and_set_leave_mirrors
    (api : ApiResult CheckResponse) (status : bool) (user : option JsVal)
    (w : World) :
  (localStorage (after (checkLoginStatus api) w) = localStorage w /\
   sessionStorage (after (checkLoginStatus api) w) = sessionStorage w /\
   storage_writes (emitted (checkLoginStatus api) w) = [] /\
   cookie_writes (emitted (checkLoginStatus api) w) = []) /\
  (localStorage (after (setLoginStatus status user) w) = localStorage w /\
   sessionStorage (after (setLoginStatus status user) w) = sessionStorage w /\
   storage_writes (emitted (setLoginStatus status user) w) = [] /\
   cookie_writes (emitted (setLoginStatus status user) w) = []).
Proof.
  open_world w. split.
  - destruct api as [r|e]; run_store.
    + destruct (isAuthenticated r), (checked_user r); run_all;
        repeat split; reflexivity.
    + run_all. repeat split; reflexivity.
  - run_store. rewrite drop_all. repeat split; reflexivity.
Qed.


(** ** Properties of [initializeUserState] *)

Lemma valid_mirror_Some (m : gmap string string) (v : JsVal) :
  valid_mirror m = Some v ->
  exists a s, m !! "userInfo" = Some (String a s) /\
              m !! "loginStatus" = Some "true" /\
              JSON_parse (String a s) = Some v.
Proof.
  unfold valid_mirror.
  destruct (m !! "userInfo") as [s|]; [|discriminate].
  destruct (m !! "loginStatus") as [f|]; [|discriminate].
  destruct (String.eqb f "true") eqn:Hf; [|discriminate].
  apply String.eqb_eq in Hf as ->.
  destruct s as [|a s]; [rewrite JSON_parse_empty; discriminate|].
  intros Hp. exists a, s. auto.
Qed.

Lemma valid_mirror_None (m : gmap string string) :
  valid_mirror m = None ->
  item_truthy (m !! "userInfo") && is_true_flag (m !! "loginStatus") = false \/
  exists a s, m !! "userInfo" = Some (String a s) /\
              m !! "loginStatus" = Some "true" /\
              JSON_parse (String a s) = None.
Proof.
  unfold valid_mirror.
  destruct (m !! "userInfo") as [[|a s]|]; [left; reflexivity| |left; reflexivity].
  destruct (m !! "loginStatus") as [f|]; [|left; reflexivity].
  cbn [item_truthy is_true_flag str_truthy andb].
  destruct (String.eqb f "true") eqn:Hf; [|left; reflexivity].
  apply String.eqb_eq in Hf as ->.
  intros Hp. right. exists a, s. auto.
Qed.

Lemma can_mirror_falsy (v : JsVal) (ls ss : gmap string string) :
  truthy v = false -> can_mirror v ls ss = true.
Proof. unfold can_mirror. intros ->. reflexivity. Qed.

Lemma init_from_session (w : World) (v : JsVal) :
  valid_mirror (sessionStorage w) = Some v ->
  can_mirror v (localStorage w) (sessionStorage w) = true ->
  result initializeUserState w = Returned tt /\
  userInfo (after initializeUserState w) = v /\
  loginStatus (after initializeUserState w) = true /\
  localStorage (after initializeUserState w) = mirror_after v (localStorage w) /\
  sessionStorage (after initializeUserState w) = mirror_after v (sessionStorage w) /\
  reads_of LocalStorage (emitted initializeUserState w) = [].
Proof.
  intros (a & s & Hu & Hf & Hp)%valid_mirror_Some Hc.
  unfold mirror_after. destruct (truthy v) eqn:Hv.
  - destruct (can_mirror_truthy _ _ _ Hv Hc) as (H1 & H2 & H3 & H4).
    open_world w. run_store. rewrite Hu, Hf. init_step. rewrite Hp. run_store.
    rewrite Hv. run_store. rewrite H1. run_store. rewrite H2. run_store.
    rewrite H3. run_store. rewrite H4. run_all. repeat split; reflexivity.
  - open_world w. run_store. rewrite Hu, Hf. init_step. rewrite Hp. run_store.
    rewrite Hv. run_all. repeat split; reflexivity.
Qed.

(** With no valid session mirror the first block changes nothing but the
    trace, and the persistent mirror decides; the cells take the parsed
    value before anything is written. *)
Lemma init_from_local (w : World) (v : JsVal) :
  valid_mirror (sessionStorage w) = None ->
  valid_mirror (localStorage w) = Some v ->
  result initializeUserState w = Returned tt /\
  userInfo (after initializeUserState w) = v /\
  loginStatus (after initializeUserState w) = true /\
  (can_mirror v (localStorage w) (sessionStorage w) = true ->
   localStorage (after initializeUserState w) = mirror_after v (localStorage w) /\
   sessionStorage (after initializeUserState w) = mirror_after v (sessionStorage w)).
Proof.
  intros Hs (a & s & Hu & Hf & Hp)%valid_mirror_Some.
  unfold mirror_after.
  destruct (valid_mirror_None _ Hs) as [Hno|(a' & s' & Hu' & Hf' & Hp')];
    open_world w; run_store;
    rewrite ?Hno, ?Hu', ?Hf'; init_step; rewrite ?Hp'; init_step;
    rewrite Hu, Hf; init_step; rewrite Hp; run_store;
    (destruct (truthy v) eqn:Hv; run_store; split_fits; new_events;
     (split; [reflexivity|]); (split; [reflexivity|]); (split; [reflexivity|]);
     intros Hc;
     [ destruct (can_mirror_truthy _ _ _ Hv Hc) as (? & ? & ? & ?);
       first [congruence | split; reflexivity] ..
     | split; reflexivity ]).
Qed.

(** With no valid mirror at all: a malformed persistent mirror is removed
    and the cells are left alone; otherwise [updateUserState(null, false)]
    runs. *)
Lemma init_from_nothing (w : World) :
  valid_mirror (sessionStorage w) = None ->
  valid_mirror (localStorage w) = None ->
  result initializeUserState w = Returned tt /\
  localStorage (after initializeUserState w)
    = delete "loginStatus" (delete "userInfo" (localStorage w)) /\
  ((userInfo (after initializeUserState w) = userInfo w /\
    loginStatus (after initializeUserState w) = loginStatus w /\
    sessionStorage (after initializeUserState w) = sessionStorage w) \/
   (userInfo (after initializeUserState w) = JNull /\
    loginStatus (after initializeUserState w) = false /\
    sessionStorage (after initializeUserState w)
      = delete "loginStatus" (delete "userInfo" (sessionStorage w)))).
Proof.
  intros Hs Hl.
  destruct (valid_mirror_None _ Hs) as [Hno|(a' & s' & Hu' & Hf' & Hp')];
    destruct (valid_mirror_None _ Hl) as [Hno2|(a & s & Hu & Hf & Hp)];
    open_world w; run_store;
    rewrite ?Hno, ?Hu', ?Hf'; init_step; rewrite ?Hp'; init_step;
    rewrite ?Hno2, ?Hu, ?Hf; init_step; rewrite ?Hp; init_step;
    (split; [reflexivity|]); (split; [reflexivity|]);
    ((left; repeat split; reflexivity) || (right; repeat split; reflexivity)).
Qed.

(** The part of [initializeUserState] that consults the persistent scope,
    in any world: it returns, and the cells take the value of a valid
    persistent mirror, or are left alone (a malformed mirror), or are
    cleared. *)
Lemma restore_from_local_run (w : World) :
  result restore_from_local w = Returned tt /\
  match valid_mirror (localStorage w) with
  | Some v =>
      userInfo (after restore_from_local w) = v /\
      loginStatus (after restore_from_local w) = true
  | None =>
      (userInfo (after restore_from_local w) = userInfo w /\
       loginStatus (after restore_from_local w) = loginStatus w) \/
      (userInfo (after restore_from_local w) = JNull /\
       loginStatus (after restore_from_local w) = false)
  end.
Proof.
  destruct (valid_mirror (localStorage w)) as [v|] eqn:Hl.
  - destruct (valid_mirror_Some _ _ Hl) as (a & s & Hu & Hf & Hp).
    open_world w. run_store. rewrite Hu, Hf. init_step. rewrite Hp. run_store.
    destruct (truthy v); run_store; split_fits; auto.
  - destruct (valid_mirror_None _ Hl) as [Hno|(a & s & Hu & Hf & Hp)];
      open_world w; cbv [restore_from_local updateUserState];
      change (truthy JNull) with false; run_store;
      rewrite ?Hno, ?Hu, ?Hf; init_step; rewrite ?Hp; init_step; auto.
Qed.

(** When a write of the session restore fails, the [catch] of lines 61-63
    swallows the error and the function goes on with the persistent scope,
    in the world that the failed restore left. *)
Lemma init_session_write_fails (w : World) (v : JsVal) :
  valid_mirror (sessionStorage w) = Some v ->
  can_mirror v (localStorage w) (sessionStorage w) = false ->
  initializeUserState w
  = restore_from_local (after_session_catch (updateUserState v true) w).
Proof.
  intros (a & s & Hu & Hf & Hp)%valid_mirror_Some Hc.
  destruct (truthy v) eqn:Hv; [|rewrite can_mirror_falsy in Hc by exact Hv; discriminate].
  unfold can_mirror in Hc. rewrite Hv in Hc. cbn [negb orb] in Hc.
  open_world w.
  cbv [initializeUserState restore_from_local after_session_catch updateUserState].
  change (truthy JNull) with false. run_store.
  rewrite Hu, Hf. init_step. rewrite Hp. run_store. rewrite Hv. run_store.
  destruct (storage_fits LocalStorage _) eqn:H1 in Hc |- *; run_store; [|reflexivity].
  destruct (storage_fits LocalStorage _) eqn:H2 in Hc |- *; run_store; [|reflexivity].
  destruct (storage_fits SessionStorage _) eqn:H3 in Hc |- *; run_store; [|reflexivity].
  destruct (storage_fits SessionStorage _) eqn:H4 in Hc |- *; run_store; [|reflexivity].
  discriminate Hc.
Qed.

Lemma after_session_catch_facts (w : World) (v : JsVal) :
  let w1 := after_session_catch (updateUserState v true) w in
  userInfo w1 = v /\ loginStatus w1 = true /\
  localStorage w1 = localStorage (after (updateUserState v true) w).
Proof.
  cbv zeta. open_world w. run_store. destruct (truthy v); run_store; split_fits; auto.
Qed.



(** C9.  When at setup [sessionStorage] holds no valid mirror and
    [localStorage] holds a ['userInfo'] text that does not parse together
    with ['loginStatus'] equal to ['true'], the setup returns normally, both
    keys are gone from [localStorage], and the store ends with
    [userInfo = null] and [loginStatus = false]. *)
Theorem malformed_persistent_mirror_discarded
    (ls ss : gmap string string) (text : string) :
  valid_mirror ss = None ->
  ls !! "userInfo" = Some text ->
  ls !! "loginStatus" = Some "true" ->
  JSON_parse text = None ->
  let w' := (useUserStore ls ss).2 in
  (useUserStore ls ss).1 = Returned tt /\
  localStorage w' !! "userInfo" = None /\
  localStorage w' !! "loginStatus" = None /\
  userInfo w' = JNull /\
  loginStatus w' = false.
Proof.
  intros Hs Hu Hf Hp. cbv zeta.
  assert (Hl : valid_mirror ls = None).
  { unfold valid_mirror. rewrite Hu, Hf. exact Hp. }
  destruct (init_from_nothing (fresh ls ss) Hs Hl) as (Hr & Hls & Hcells).
  destruct (removed_mirror ls) as [H1 H2].
  split; [exact Hr|].
  change (localStorage (useUserStore ls ss).2)
    with (localStorage (after initializeUserState (fresh ls ss))).
  rewrite Hls. split; [exact H1|]. split; [exact H2|].
  destruct Hcells as [(Hc1 & Hc2 & _)|(Hc1 & Hc2 & _)]; auto.
Qed.

(** C10.  When [initializeUserState] restores a user record (a present
    value) from the session scope and the restore completes, that is the
    writes of [updateUserState] for that record succeed on the storages as
    they are, [localStorage] holds afterwards the serialized record under
    ['userInfo'] and ['true'] under ['loginStatus'], whatever it held
    before. *)
Theorem session_restore_promotes (w : World) (v : JsVal) :
  valid_mirror (sessionStorage w) = Some v ->
  truthy v = true ->
  result (updateUserState v true) w = Returned tt ->
  localStorage (after initializeUserState w) !! "userInfo"
    = Some (JSON_stringify v) /\
  localStorage (after initializeUserState w) !! "loginStatus" = Some "true".
Proof.
  intros Hs Hv Hr. apply updateUserState_returns_iff in Hr.
  destruct (init_from_session w v Hs Hr) as (_ & _ & _ & -> & _).
  unfold mirror_after. rewrite Hv. apply written_mirror.
Qed.

(** ** The invariant *)

Lemma signin_cells (data : SigninRequest) (api : ApiResult SigninResponse)
    (now : Z) (w : World) :
  (exists res, api = Resolved res /\ success res = true) \/
  (userInfo (after (signin data api now) w) = userInfo w /\
   loginStatus (after (signin data api now) w) = loginStatus w).
Proof.
  destruct api as [res|e].
  - destruct (success res) eqn:Hs.
    + left. exists res. auto.
    + right. unfold after. rewrite (signin_failure_run data res now w Hs).
      auto.
  - right. open_world w. run_store. auto.
Qed.

Lemma logout_cells (api : Detached) (notify navigate : option Error) (w : World) :
  loginStatus (after (logout api notify navigate) w) = false.
Proof.
  open_world w. cbv [logout updateUserState]. cbn [truthy].
  destruct api, notify, navigate; reflexivity.
Qed.

Lemma can_mirror_false_truthy (v : JsVal) (ls ss : gmap string string) :
  can_mirror v ls ss = false -> truthy v = true.
Proof.
  intros Hc. destruct (truthy v) eqn:Hv; [reflexivity|].
  rewrite can_mirror_falsy in Hc by exact Hv. discriminate.
Qed.

(** What the cells hold after [initializeUserState]: they are untouched,
    or cleared, or hold a value taken from storage with the flag set; and a
    falsy value is only taken as [adopts_falsy] says. *)
Lemma init_cells (w : World) :
  (userInfo (after initializeUserState w) = userInfo w /\
   loginStatus (after initializeUserState w) = loginStatus w) \/
  (userInfo (after initializeUserState w) = JNull /\
   loginStatus (after initializeUserState w) = false) \/
  (loginStatus (after initializeUserState w) = true /\
   (truthy (userInfo (after initializeUserState w)) = false -> adopts_falsy w)).
Proof.
  unfold adopts_falsy.
  destruct (valid_mirror (sessionStorage w)) as [vs|] eqn:Hs.
  - destruct (can_mirror vs (localStorage w) (sessionStorage w)) eqn:Hc.
    + destruct (init_from_session w vs Hs Hc) as (_ & -> & -> & _).
      right. right. split; [reflexivity|]. intros Hv. exists vs. auto.
    + unfold after. rewrite (init_session_write_fails w vs Hs Hc).
      fold (after restore_from_local (after_session_catch (updateUserState vs true) w)).
      destruct (after_session_catch_facts w vs) as (Hu1 & Hl1 & Hls1).
      destruct (restore_from_local_run (after_session_catch (updateUserState vs true) w))
        as (_ & Hrun).
      rewrite Hls1 in Hrun.
      destruct (valid_mirror (localStorage (after (updateUserState vs true) w)))
        as [v|] eqn:Hl.
      * destruct Hrun as [-> ->]. right. right. split; [reflexivity|].
        intros Hv. exists v. split; [exact Hv|]. right. split; [|exact Hl].
        intros Hr. apply updateUserState_returns_iff in Hr. congruence.
      * destruct Hrun as [[-> ->]|[-> ->]].
        -- right. right. rewrite Hu1, Hl1. split; [reflexivity|].
           rewrite (can_mirror_false_truthy _ _ _ Hc). discriminate.
        -- right. left. auto.
  - destruct (valid_mirror (localStorage w)) as [v|] eqn:Hl.
    + destruct (init_from_local w v Hs Hl) as (_ & -> & -> & _).
      right. right. split; [reflexivity|]. intros Hv. exists v. auto.
    + destruct (init_from_nothing w Hs Hl)
        as (_ & _ & [(-> & -> & _)|(-> & -> & _)]); auto.
Qed.

Lemma consistent_step (w : World) (o : Op) :
  consistent_call w o ->
  authenticated_has_user w -> authenticated_has_user (run o w).
Proof.
  unfold authenticated_has_user. intros Hok Hw.
  destruct o as [data api now|api notify navigate|api|status user|user status|];
    cbn [run consistent_call] in *.
  - destruct (signin_cells data api now w) as [(res & -> & Hs)|[-> ->]].
    + destruct (signin_success_cells data res now w Hs) as (-> & _).
      intros _. apply user_val_truthy.
    + exact Hw.
  - rewrite logout_cells. intros Hf. discriminate Hf.
  - destruct api as [r|e].
    + destruct (checkLoginStatus_cells r w) as [-> ->].
      intros Ha. specialize (Hok Ha). rewrite Ha.
      destruct (checked_user r); [apply user_val_truthy | contradiction].
    + open_world w. run_store. intros Hf. discriminate Hf.
  - open_world w. run_store. exact Hok.
  - destruct (updateUserState_cells user status w) as (-> & -> & _). exact Hok.
  - destruct (init_cells w) as [[-> ->]|[[_ ->]|[_ Hfalsy]]].
    + exact Hw.
    + intros Hf. discriminate Hf.
    + intros _. destruct (truthy (userInfo (after initializeUserState w))) eqn:Hv;
        [reflexivity|]. contradiction (Hok (Hfalsy eq_refl)).
Qed.

(** C8, as amended.  [loginStatus = true] implies a present (truthy)
    [userInfo] in every state reached from the setup by calls that do not
    themselves pair an authenticated flag with an absent user:
    [updateUserState] and [setLoginStatus] with status [true] and a falsy
    user, [checkLoginStatus] answered [isAuthenticated] without a user, and
    an [initializeUserState] that takes a falsy value from storage. *)
Theorem consistent_calls_keep_invariant (w : World) :
  reachable consistent_call w -> authenticated_has_user w.
Proof.
  induction 1 as [ls ss Hok|w o _ IH Hok].
  - apply consistent_step; [exact Hok|]. intros Hf. discriminate Hf.
  - apply consistent_step; assumption.
Qed.

End Properties.

(** ** Further properties of the operations *)

Section Composition.

Context `{P : Platform}.

(** *** [signin], when the call throws *)


(** *** [displayName] *)

Lemma get_prop_user (u : UserInfo) :
  get_prop "full_name" (user_val u) = JStr (full_name u) /\
  get_prop "username" (user_val u) = JStr (username u).
Proof.
  unfold get_prop, user_val.
  destruct (avatar u), (last_login u), (updated_at u); split; reflexivity.
Qed.

Lemma js_or_names (f n : string) :
  js_or (js_or (JStr f) (JStr n)) (JStr EmptyString)
  = JStr (if str_truthy f then f else n).
Proof. destruct f as [|a f]; [destruct n|]; reflexivity. Qed.

(** X3.  For a store holding a [UserInfo] object, [displayName] is its
    [full_name] when that is not empty, and its [username] otherwise (the
    empty string when both are empty). *)
Theorem displayName_of_user (u : UserInfo) (w : World) :
  userInfo w = user_val u ->
  displayName w
  = JStr (if str_truthy (full_name u) then full_name u else username u).
Proof.
  intros Hu. unfold displayName. rewrite Hu.
  destruct (get_prop_user u) as [-> ->]. apply js_or_names.
Qed.

Lemma logout_run_cells (api : Detached) (notify navigate : option Error) (w : World) :
  userInfo (after (logout api notify navigate) w) = JNull /\
  loginStatus (after (logout api notify navigate) w) = false /\
  localStorage (after (logout api notify navigate) w)
    = delete "loginStatus" (delete "userInfo" (localStorage w)) /\
  sessionStorage (after (logout api notify navigate) w)
    = delete "loginStatus" (delete "userInfo" (sessionStorage w)).
Proof.
  open_world w. cbv [logout updateUserState]. cbn [truthy].
  destruct api, notify, navigate; run_store; repeat split; reflexivity.
Qed.

(** X4.  [displayName] is never absent: it is the empty string or a truthy
    value, whatever [userInfo] holds; it is the empty string when
    [userInfo] is [null], hence after every [logout]; and after a
    successful [signin] it is the name of the returned user. *)
Theorem displayName_follows_session :
  (forall w : World,
      displayName w = JStr EmptyString \/ truthy (displayName w) = true) /\
  (forall w : World, userInfo w = JNull -> displayName w = JStr EmptyString) /\
  (forall api notify navigate (w : World),
      displayName (after (logout api notify navigate) w) = JStr EmptyString) /\
  (forall data res now (w : World),
      success res = true ->
      displayName (after (signin data (Resolved res) now) w)
      = JStr (if str_truthy (full_name (user (data_of res)))
              then full_name (user (data_of res))
              else username (user (data_of res)))).
Proof.
  assert (Hnull : forall w : World,
             userInfo w = JNull -> displayName w = JStr EmptyString).
  { intros w Hu. unfold displayName. rewrite Hu. reflexivity. }
  split; [|split; [exact Hnull|split]].
  - intros w. unfold displayName.
    generalize (js_or (get_prop "full_name" (userInfo w))
                      (get_prop "username" (userInfo w))).
    intros x. unfold js_or.
    destruct (truthy x) eqn:Hx; [right; exact Hx | left; reflexivity].
  - intros api notify navigate w. apply Hnull.
    apply (logout_run_cells api notify navigate w).
  - intros data res now w Hs. unfold displayName.
    destruct (signin_success_cells data res now w Hs) as (-> & _).
    destruct (get_prop_user (user (data_of res))) as [-> ->].
    apply js_or_names.
Qed.

(** *** How the mirrors compose *)

Lemma updateUserState_storages (user : JsVal) (status : bool) (w : World) :
  result (updateUserState user status) w = Returned tt ->
  localStorage (after (updateUserState user status) w)
    = mirror_after user (localStorage w) /\
  sessionStorage (after (updateUserState user status) w)
    = mirror_after user (sessionStorage w).
Proof.
  intros Hr. unfold mirror_after. destruct (truthy user) eqn:Hu.
  - apply updateUserState_truthy; assumption.
  - apply updateUserState_falsy, Hu.
Qed.

(** Whether it returns or throws, [updateUserState] leaves the other keys
    of both storages alone. *)
Lemma updateUserState_other_keys (user : JsVal) (status : bool) (w : World)
    (k : string) :
  is_mirror_key k = false ->
  localStorage (after (updateUserState user status) w) !! k = localStorage w !! k /\
  sessionStorage (after (updateUserState user status) w) !! k = sessionStorage w !! k.
Proof.
  unfold is_mirror_key. intros [H1 H2]%orb_false_iff.
  apply String.eqb_neq in H1, H2.
  open_world w. run_store. destruct (truthy user); run_store; split_fits;
    split; by simplify_map_eq.
Qed.

Lemma mirror_key_cases (k : string) :
  is_mirror_key k = true -> k = "userInfo" \/ k = "loginStatus".
Proof.
  unfold is_mirror_key. intros [H|H]%orb_true_iff; apply String.eqb_eq in H; auto.
Qed.

Lemma mirror_after_lookup (v : JsVal) (m : gmap string string) (k : string) :
  mirror_after v m !! k
  = if is_mirror_key k
    then (if truthy v
          then Some (if String.eqb k "userInfo" then JSON_stringify v else "true")
          else None)
    else m !! k.
Proof.
  unfold mirror_after, is_mirror_key.
  destruct (String.eqb k "userInfo") eqn:Hu;
    [apply String.eqb_eq in Hu as ->|apply String.eqb_neq in Hu];
    [|destruct (String.eqb k "loginStatus") eqn:Hl;
      [apply String.eqb_eq in Hl as ->|apply String.eqb_neq in Hl]];
    cbn [orb]; destruct (truthy v); by simplify_map_eq.
Qed.

Lemma mirror_after_agree (v : JsVal) (m1 m2 : gmap string string) :
  (forall k, is_mirror_key k = false -> m1 !! k = m2 !! k) ->
  mirror_after v m1 = mirror_after v m2.
Proof.
  intros H. apply map_eq. intros k. rewrite !mirror_after_lookup.
  destruct (is_mirror_key k) eqn:Hk; [reflexivity | apply H, Hk].
Qed.

(** X5.  The last [updateUserState] wins, provided its writes succeed:
    when the second of two calls in a row returns, and also returns when
    made alone, the cells and both storages after the two calls are exactly
    what the second call alone leaves, whatever the first one wrote,
    removed or failed to write. *)
Theorem last_update_wins (u1 u2 : JsVal) (s1 s2 : bool) (w : World) :
  result (updateUserState u2 s2) (after (updateUserState u1 s1) w) = Returned tt ->
  result (updateUserState u2 s2) w = Returned tt ->
  let w12 := after (updateUserState u2 s2) (after (updateUserState u1 s1) w) in
  let w2 := after (updateUserState u2 s2) w in
  userInfo w12 = userInfo w2 /\
  loginStatus w12 = loginStatus w2 /\
  isLoading w12 = isLoading w2 /\
  localStorage w12 = localStorage w2 /\
  sessionStorage w12 = sessionStorage w2.
Proof.
  intros H12 H2. cbv zeta.
  destruct (updateUserState_cells u2 s2 (after (updateUserState u1 s1) w))
    as (-> & -> & ->).
  destruct (updateUserState_cells u1 s1 w) as (_ & _ & ->).
  destruct (updateUserState_cells u2 s2 w) as (-> & -> & ->).
  destruct (updateUserState_storages u2 s2 _ H12) as (-> & ->).
  destruct (updateUserState_storages u2 s2 _ H2) as (-> & ->).
  repeat split; apply mirror_after_agree; intros k Hk;
    apply (updateUserState_other_keys u1 s1 w k Hk).
Qed.

(** X6.  The second write of the session mirror in [signin] (lines
    114-116) changes nothing: after a successful [signin] both storages are
    exactly what [updateUserState(user, true)] alone leaves. *)
Theorem signin_forced_write_is_redundant
    (data : SigninRequest) (res : SigninResponse) (now : Z) (w : World) :
  success res = true ->
  let u := user_val (user (data_of res)) in
  localStorage (after (signin data (Resolved res) now) w)
    = localStorage (after (updateUserState u true) w) /\
  sessionStorage (after (signin data (Resolved res) now) w)
    = sessionStorage (after (updateUserState u true) w).
Proof.
  intros Hs. cbv zeta. open_world w. run_store. rewrite Hs, user_val_truthy.
  destruct (refresh (data_of res)) as [[|c r]|];
    cbn [item_truthy item_text str_truthy]; run_store; split_fits;
    rewrite ?rewritten_userInfo, ?rewritten_flag in *;
    first [congruence | split; reflexivity].
Qed.

(** *** Reloading the page *)

Lemma valid_mirror_after (v : JsVal) (m : gmap string string) :
  truthy v = true ->
  valid_mirror (mirror_after v m) = JSON_parse (JSON_stringify v).
Proof.
  intros Hv. unfold valid_mirror. rewrite !mirror_after_lookup, Hv. reflexivity.
Qed.

Lemma valid_mirror_removed (v : JsVal) (m : gmap string string) :
  truthy v = false -> valid_mirror (mirror_after v m) = None.
Proof.
  intros Hv. unfold valid_mirror. rewrite !mirror_after_lookup, Hv. reflexivity.
Qed.

Lemma valid_mirror_empty : valid_mirror ∅ = None.
Proof. unfold valid_mirror. rewrite lookup_empty. reflexivity. Qed.

Lemma can_mirror_again (v : JsVal) (ls ss : gmap string string) :
  can_mirror v ls ss = true ->
  can_mirror v (mirror_after v ls) (mirror_after v ss) = true.
Proof.
  intros Hc. destruct (truthy v) eqn:Hv; [|apply can_mirror_falsy, Hv].
  destruct (can_mirror_truthy _ _ _ Hv Hc) as (_ & H2 & _ & H4).
  unfold can_mirror, mirror_after. rewrite Hv. cbn [negb orb].
  rewrite !rewritten_userInfo, !rewritten_flag, H2, H4. reflexivity.
Qed.

(** X7.  A user written by an [updateUserState] that returns survives a
    page reload whenever its serialization parses back to it: the new
    store holds that user with [loginStatus = true], even when the call was
    made with [status = false]. *)
Theorem update_survives_reload (u : JsVal) (status : bool) (w : World) :
  truthy u = true ->
  JSON_parse (JSON_stringify u) = Some u ->
  result (updateUserState u status) w = Returned tt ->
  userInfo (reload (after (updateUserState u status) w)) = u /\
  loginStatus (reload (after (updateUserState u status) w)) = true.
Proof.
  intros Hu Hrt Hr. unfold reload.
  destruct (updateUserState_storages u status w Hr) as (-> & ->).
  apply updateUserState_returns_iff in Hr.
  destruct (init_from_session
              (fresh (mirror_after u (localStorage w))
                     (mirror_after u (sessionStorage w))) u)
    as (_ & Hv & Hl & _).
  - cbn [sessionStorage fresh]. rewrite valid_mirror_after by exact Hu. exact Hrt.
  - apply can_mirror_again, Hr.
  - auto.
Qed.

Lemma signin_returns_true (data : SigninRequest) (res : SigninResponse)
    (now : Z) (w : World) :
  result (signin data (Resolved res) now) w = Returned true ->
  success res = true /\
  result (updateUserState (user_val (user (data_of res))) true) w = Returned tt.
Proof.
  intros Hr. destruct (success res) eqn:Hs.
  - split; [reflexivity|]. revert Hr. open_world w. run_store.
    rewrite Hs, user_val_truthy.
    destruct (refresh (data_of res)) as [[|c r]|];
      cbn [item_truthy item_text str_truthy]; run_store; split_fits;
      intros Hr; reflexivity || discriminate Hr.
  - unfold result in Hr. rewrite (signin_failure_run data res now w Hs) in Hr.
    discriminate Hr.
Qed.

(** X8.  A sign-in that returned [true] survives a browser restart, with
    or without [rememberMe]: a store set up on the persistent scope alone
    (the session scope emptied) holds the returned user with
    [loginStatus = true], whenever the user's serialization parses back to
    it. *)
Theorem signin_survives_restart
    (data : SigninRequest) (res : SigninResponse) (now : Z) (w : World) :
  result (signin data (Resolved res) now) w = Returned true ->
  let u := user_val (user (data_of res)) in
  JSON_parse (JSON_stringify u) = Some u ->
  userInfo (restart (after (signin data (Resolved res) now) w)) = u /\
  loginStatus (restart (after (signin data (Resolved res) now) w)) = true.
Proof.
  intros [Hs Hw]%signin_returns_true. cbv zeta. intros Hrt. unfold restart.
  destruct (signin_success_run data res now w Hs Hw) as (_ & _ & _ & _ & -> & _).
  pose proof (valid_mirror_after (user_val (user (data_of res))) (localStorage w)
                (user_val_truthy _)) as Hm.
  unfold mirror_after in Hm. rewrite user_val_truthy in Hm.
  destruct (init_from_local
              (fresh (<["loginStatus":="true"]>
                        (<["userInfo":=JSON_stringify (user_val (user (data_of res)))]>
                           (localStorage w))) ∅)
              (user_val (user (data_of res))))
    as (_ & Hv & Hl & _).
  - apply valid_mirror_empty.
  - cbn [localStorage fresh]. rewrite Hm. exact Hrt.
  - auto.
Qed.

(** X9.  After [logout], whatever the store and the storages held and
    whatever the sign-out call does, a page reload and a browser restart
    both give a store with [userInfo = null] and [loginStatus = false]. *)
Theorem logout_survives_reload
    (api : Detached) (notify navigate : option Error) (w : World) :
  let w' := after (logout api notify navigate) w in
  (userInfo (reload w') = JNull /\ loginStatus (reload w') = false) /\
  (userInfo (restart w') = JNull /\ loginStatus (restart w') = false).
Proof.
  cbv zeta. unfold reload, restart.
  destruct (logout_run_cells api notify navigate w) as (_ & _ & -> & ->).
  pose proof (valid_mirror_removed JNull (localStorage w) eq_refl) as Hl.
  pose proof (valid_mirror_removed JNull (sessionStorage w) eq_refl) as Hs.
  unfold mirror_after in Hl, Hs. cbn [truthy] in Hl, Hs.
  split.
  - destruct (init_from_nothing
                (fresh (delete "loginStatus" (delete "userInfo" (localStorage w)))
                       (delete "loginStatus" (delete "userInfo" (sessionStorage w))))
                Hs Hl) as (_ & _ & [(Hu & Hf & _)|(Hu & Hf & _)]); auto.
  - destruct (init_from_nothing
                (fresh (delete "loginStatus" (delete "userInfo" (localStorage w))) ∅)
                valid_mirror_empty Hl) as (_ & _ & [(Hu & Hf & _)|(Hu & Hf & _)]); auto.
Qed.

(** *** Restoring at setup *)

(** X14.  With no valid session mirror and a persistent ['userInfo'] text
    that does not parse beside ['loginStatus'] equal to ['true'], the setup
    leaves [sessionStorage] exactly as it was (a malformed session mirror
    stays in place) when the persistent text is not empty; when it is the
    empty string the setup takes the [else] branch instead and removes the
    two session keys as well. *)
Theorem malformed_session_mirror_stays
    (ls ss : gmap string string) (text : string) :
  valid_mirror ss = None ->
  ls !! "userInfo" = Some text ->
  ls !! "loginStatus" = Some "true" ->
  JSON_parse text = None ->
  sessionStorage (useUserStore ls ss).2
  = if str_truthy text then ss
    else delete "loginStatus" (delete "userInfo" ss).
Proof.
  intros Hs Hu Hf Hp.
  destruct (valid_mirror_None _ Hs) as [Hno|(a' & s' & Hu' & Hf' & Hp')];
    destruct text as [|a text];
    run_store;
    rewrite ?Hno, ?Hu', ?Hf'; init_step; rewrite ?Hp'; init_step;
    rewrite ?Hu, ?Hf; init_step; rewrite ?Hp; init_step;
    reflexivity.
Qed.


(** X17.  A stored ['userInfo'] text that parses to a falsy value ([null],
    [0], [false], the empty string) is adopted once: the setup ends with
    that value in [userInfo] and [loginStatus = true], but it removes both
    mirrors, so that the store built by the next page reload has
    [userInfo = null] and [loginStatus = false]. *)
Theorem falsy_mirror_restores_once (ls ss : gmap string string) (v : JsVal) :
  valid_mirror ss = Some v \/ (valid_mirror ss = None /\ valid_mirror ls = Some v) ->
  truthy v = false ->
  let w' := (useUserStore ls ss).2 in
  (userInfo w' = v /\ loginStatus w' = true) /\
  (userInfo (reload w') = JNull /\ loginStatus (reload w') = false).
Proof.
  intros Hv Hf. cbv zeta.
  assert (H : userInfo (useUserStore ls ss).2 = v /\
              loginStatus (useUserStore ls ss).2 = true /\
              localStorage (useUserStore ls ss).2 = mirror_after v ls /\
              sessionStorage (useUserStore ls ss).2 = mirror_after v ss).
  { pose proof (can_mirror_falsy v ls ss Hf) as Hc.
    destruct Hv as [Hs|[Hs Hl]].
    - destruct (init_from_session (fresh ls ss) v Hs Hc) as (_ & ? & ? & ? & ? & _). auto.
    - destruct (init_from_local (fresh ls ss) v Hs Hl) as (_ & ? & ? & Hst).
      destruct (Hst Hc). auto. }
  destruct H as (Hu & Hl & Hls & Hss). split; [auto|].
  unfold reload. rewrite Hls, Hss.
  destruct (init_from_nothing (fresh (mirror_after v ls) (mirror_after v ss))
              (valid_mirror_removed v ss Hf) (valid_mirror_removed v ls Hf))
    as (_ & _ & [(H1 & H2 & _)|(H1 & H2 & _)]); auto.
Qed.

(** *** The refresh cookie *)

(** X16.  A refresh value that is present but empty counts as absent: on a
    successful response whose [refresh] is the empty string, [signin]
    assigns the [token] cookie and no other. *)
Theorem empty_refresh_is_not_written
    (data : SigninRequest) (res : SigninResponse) (now : Z) (w : World) :
  success res = true ->
  refresh (data_of res) = Some EmptyString ->
  cookie_writes (emitted (signin data (Resolved res) now) w)
  = ["token=" +:+ token (data_of res) +:+ ";path=/;expires="
     +:+ signin_expiry data now].
Proof.
  intros Hs Hr. unfold signin_expiry. open_world w. run_store.
  rewrite Hs, user_val_truthy, Hr.
  cbn [item_truthy item_text str_truthy]. run_store.
  destruct (rememberMe data) as [[|]|]; cbn [flag_truthy]; split_fits;
    new_events; reflexivity.
Qed.

(** *** [signin], when a write fails *)

(** X18.  On a response with [success = true], when a write of
    [updateUserState] exceeds a quota, [signin] throws
    [QuotaExceededError] to its caller; by then the cookies are assigned
    and [userInfo] and [loginStatus] hold the returned user and [true], and
    [isLoading] is [false] afterwards. *)
Theorem signin_write_failure
    (data : SigninRequest) (res : SigninResponse) (now : Z) (w : World) :
  success res = true ->
  result (updateUserState (user_val (user (data_of res))) true) w <> Returned tt ->
  let w' := after (signin data (Resolved res) now) w in
  result (signin data (Resolved res) now) w = Thrown QuotaExceededError /\
  cookie_writes (emitted (signin data (Resolved res) now) w)
    = ("token=" +:+ token (data_of res) +:+ ";path=/;expires="
       +:+ signin_expiry data now)
      :: refresh_cookies res (signin_expiry data now) /\
  userInfo w' = user_val (user (data_of res)) /\
  loginStatus w' = true /\
  isLoading w' = false.
Proof.
  intros Hs Hw. cbv zeta. unfold signin_expiry, refresh_cookies.
  revert Hw. open_world w. run_store. rewrite Hs, user_val_truthy.
  destruct (rememberMe data) as [[|]|], (refresh (data_of res)) as [[|c r]|];
    cbn [flag_truthy item_truthy item_text str_truthy];
    run_store; split_fits; new_events; intros Hw;
    first [ contradiction Hw; reflexivity | repeat split; reflexivity ].
Qed.

(** *** The converse of the invariant *)

Lemma synchronizing_step (w : World) (o : Op) :
  synchronizing_call w o ->
  user_is_authenticated w -> user_is_authenticated (run o w).
Proof.
  unfold user_is_authenticated, present. intros Hok Hw.
  destruct o as [data api now|api notify navigate|api|status user|user status|];
    cbn [run synchronizing_call] in *; try contradiction.
  - destruct api as [res|e].
    + destruct (success res) eqn:Hs.
      * intros _. apply (signin_success_cells data res now w Hs).
      * unfold after. rewrite (signin_failure_run data res now w Hs). exact Hw.
    + open_world w. run_store. exact Hw.
  - destruct (logout_run_cells api notify navigate w) as (-> & _).
    intros Hp. contradiction.
  - destruct api as [r|e].
    + destruct (checkLoginStatus_cells r w) as [-> ->].
      destruct (isAuthenticated r); [reflexivity|].
      intros Hp. contradiction.
    + open_world w. run_store. intros Hp. contradiction.
  - destruct (init_cells w) as [[-> ->]|[[-> _]|[-> _]]];
      [exact Hw | intros Hp; contradiction | reflexivity].
Qed.

(** X12.  In every state reached from the setup by [signin], [logout],
    [checkLoginStatus] and [initializeUserState], with any answers of the
    API and on any storage contents, a present [userInfo] implies
    [loginStatus = true]: these four never leave a user in a store that is
    not authenticated. *)
Theorem synchronizing_calls_authenticate_user (w : World) :
  reachable synchronizing_call w -> user_is_authenticated w.
Proof.
  induction 1 as [ls ss Hok|w o _ IH Hok].
  - apply synchronizing_step; [exact Hok|]. intros Hp. contradiction Hp. reflexivity.
  - apply synchronizing_step; assumption.
Qed.

End Composition.

(** ** What the operations leave alone *)

Section Frames.

Context `{P : Platform}.

#[local] Instance emits_preorder (good : Event -> bool) : PreOrder (emits good).
Proof.
  split.
  - intros w. exists []. split; [symmetry; apply app_nil_r | reflexivity].
  - intros a b c (e1 & H1 & G1) (e2 & H2 & G2). exists (e1 ++ e2)%list. split.
    + rewrite H2, H1. symmetry. apply app_assoc.
    + rewrite forallb_app, G1, G2. reflexivity.
Qed.

#[local] Instance keeps_other_keys_preorder : PreOrder keeps_other_keys.
Proof.
  split.
  - intros w k _. auto.
  - intros a b c H1 H2 k Hk. destruct (H1 k Hk) as [<- <-]. apply (H2 k Hk).
Qed.

#[local] Instance keeps_isLoading_preorder : PreOrder keeps_isLoading.
Proof.
  split.
  - intros w. reflexivity.
  - intros a b c H1 H2. unfold keeps_isLoading in *. congruence.
Qed.

Section Rules.

Context (R : World -> World -> Prop) `{!PreOrder R}.

Lemma preserves_ret {A} (a : A) : preserves R (ret a).
Proof. intros w. reflexivity. Qed.

Lemma preserves_throw {A} (e : Error) : preserves R (throw (A := A) e).
Proof. intros w. reflexivity. Qed.

Lemma preserves_read {A} (f : World -> A) :
  preserves R (fun w => (Returned (f w), w)).
Proof. intros w. reflexivity. Qed.

Lemma preserves_bind {A B} (m : M A) (k : A -> M B) :
  preserves R m -> (forall a, preserves R (k a)) -> preserves R (bind m k).
Proof.
  intros Hm Hk w. specialize (Hm w). unfold after, bind in *.
  destruct (m w) as [[a|e] w1]; cbn [snd] in *; [|exact Hm].
  transitivity w1; [exact Hm | apply Hk].
Qed.

Lemma preserves_try_catch {A} (body : M A) (handler : Error -> M A) :
  preserves R body -> (forall e, preserves R (handler e)) ->
  preserves R (try_catch body handler).
Proof.
  intros Hm Hk w. specialize (Hm w). unfold after, try_catch in *.
  destruct (body w) as [[a|e] w1]; cbn [snd] in *; [exact Hm|].
  transitivity w1; [exact Hm | apply Hk].
Qed.

Lemma preserves_try_finally {A} (body : M A) (fin : M unit) :
  preserves R body -> preserves R fin -> preserves R (try_finally body fin).
Proof.
  intros Hm Hf w. specialize (Hm w). unfold after, try_finally in *.
  destruct (body w) as [r w1]. cbn [snd] in *. specialize (Hf w1).
  unfold after in Hf.
  destruct (fin w1) as [[[]|e] w2]; cbn [snd] in *;
    (transitivity w1; [exact Hm | exact Hf]).
Qed.

End Rules.

Ltac rules :=
  first [ apply preserves_bind | apply preserves_try_catch
        | apply preserves_try_finally | apply preserves_ret
        | apply preserves_throw | apply preserves_read ];
  try lazymatch goal with |- PreOrder _ => exact _ end.

Ltac emits_primitive :=
  lazymatch goal with
  | |- emits _ ?w _ =>
      open_world w; run_store; split_fits;
      first [ exists []; split; [symmetry; apply app_nil_r | reflexivity]
            | eexists [_]; split; reflexivity ]
  end.

Lemma not_mirror_key (k : string) :
  is_mirror_key k = false -> "userInfo" <> k /\ "loginStatus" <> k.
Proof.
  unfold is_mirror_key. intros [H1 H2]%orb_false_iff.
  apply String.eqb_neq in H1, H2. split; congruence.
Qed.

Ltac keys_primitive :=
  lazymatch goal with
  | |- keeps_other_keys ?w _ =>
      open_world w; run_store; split_fits;
      let k := fresh "k" in let Hk := fresh "Hk" in
      intros k Hk; destruct (not_mirror_key k Hk);
      split; by simplify_map_eq
  end.

Ltac loading_primitive :=
  lazymatch goal with
  | |- keeps_isLoading ?w _ => open_world w; run_store; split_fits; reflexivity
  end.

Lemma ops_emit_mirror_accesses (o : Op) (w : World) :
  emits mirror_access w (run o w).
Proof.
  revert w. destruct o; cbn [run]; split_preserves rules; emits_primitive.
Qed.

Lemma ops_keep_other_keys (o : Op) (w : World) : keeps_other_keys w (run o w).
Proof.
  revert w. destruct o; cbn [run]; split_preserves rules; keys_primitive.
Qed.

Lemma quiet_ops_keep_isLoading (o : Op) (w : World) :
  match o with
  | OpSignin _ _ _ => True
  | _ => keeps_isLoading w (run o w)
  end.
Proof.
  revert w. destruct o; cbn [run]; [intros; exact I|..];
    split_preserves rules; loading_primitive.
Qed.

Lemma restore_and_update_emit_locally :
  (forall user status w,
      emits is_console_or_storage w (after (updateUserState user status) w)) /\
  (forall w, emits is_console_or_storage w (after initializeUserState w)).
Proof.
  split; [intros user status|]; split_preserves rules; emits_primitive.
Qed.

Lemma emitted_of_emits {A} (good : Event -> bool) (m : M A) (w : World) :
  emits good w (after m w) -> forallb good (emitted m w) = true.
Proof.
  intros (evs & Ht & Hg). unfold emitted. rewrite Ht, drop_app_length. exact Hg.
Qed.

Lemma signin_isLoading (data : SigninRequest) (api : ApiResult SigninResponse)
    (now : Z) (w : World) :
  isLoading (after (signin data api now) w) = false.
Proof.
  destruct api as [res|e].
  - destruct (success res) eqn:Hs.
    + apply (signin_success_cells data res now w Hs).
    + unfold after. rewrite (signin_failure_run data res now w Hs). reflexivity.
  - open_world w. reflexivity.
Qed.

(** X2.  [isLoading] is [false] after every [signin], whatever the call
    does (answer with success or failure, or throw), and no other operation
    changes it. *)
Theorem isLoading_is_signin_only (o : Op) (w : World) :
  isLoading (run o w)
  = match o with
    | OpSignin _ _ _ => false
    | _ => isLoading w
    end.
Proof.
  pose proof (quiet_ops_keep_isLoading o w) as H.
  destruct o; try exact H. apply signin_isLoading.
Qed.

(** X10.  Every storage call of every operation, on either scope, is on
    the key ['userInfo'] or ['loginStatus'], and the only value ever written
    under ['loginStatus'] is ['true']. *)
Theorem storage_calls_are_on_mirror_keys (o : Op) (w : World) :
  forallb mirror_access (events_of o w) = true.
Proof.
  destruct (ops_emit_mirror_accesses o w) as (evs & Ht & Hg).
  unfold events_of. rewrite Ht, drop_app_length. exact Hg.
Qed.

(** X11.  No operation, whatever the API answers and whatever the storages
    hold, changes what either storage holds under a key other than
    ['userInfo'] and ['loginStatus']. *)
Theorem other_keys_are_untouched (o : Op) (w : World) (k : string) :
  k <> "userInfo" -> k <> "loginStatus" ->
  localStorage (run o w) !! k = localStorage w !! k /\
  sessionStorage (run o w) !! k = sessionStorage w !! k.
Proof.
  intros H1 H2. apply (ops_keep_other_keys o w k).
  unfold is_mirror_key. apply String.eqb_neq in H1, H2. rewrite H1, H2. reflexivity.
Qed.

(** X13.  [updateUserState] and [initializeUserState] only log and call
    the storages: they assign no cookie, call no API, notify nothing,
    navigate nowhere and wait for nothing. *)
Theorem restore_and_update_are_local :
  (forall user status w,
      forallb is_console_or_storage (emitted (updateUserState user status) w) = true) /\
  (forall w, forallb is_console_or_storage (emitted initializeUserState w) = true).
Proof.
  destruct restore_and_update_emit_locally as [Hu Hi].
  split; intros; apply emitted_of_emits; auto.
Qed.

End Frames.


(** ** Concrete runs, on the platform of [Browser] *)

Example epoch_utc_string : toUTCString 0 = "Thu, 01 Jan 1970 00:00:00 GMT".
Proof. vm_compute. reflexivity. Qed.

Example amy_round_trip : JSON_parse (JSON_stringify (user_val amy)) = Some (user_val amy).
Proof. vm_compute. reflexivity. Qed.

Example not_json :
  JSON_parse "{oops" = None /\ JSON_parse "[1," = None /\ JSON_parse "01" = None.
Proof. vm_compute. auto. Qed.

(** Setup on a session mirror: two reads of the session scope, then the
    writes of [updateUserState]. *)
Example setup_from_session_trace :
  trace (useUserStore ∅ (mirror_of amy_text)).2
  = [EConsole "Initializing user state";
     EGetItem SessionStorage "userInfo";
     EGetItem SessionStorage "loginStatus";
     EConsole "Updating user state:";
     ESetItem LocalStorage "userInfo" amy_text;
     ESetItem LocalStorage "loginStatus" "true";
     ESetItem SessionStorage "userInfo" amy_text;
     ESetItem SessionStorage "loginStatus" "true";
     EConsole "User state initialized from sessionStorage"].
Proof. vm_compute. reflexivity. Qed.

(** A stored text [null] parses, so it is adopted: the flag is set, the
    user is absent and the mirror is removed. *)
Example stored_null_is_adopted :
  let w := (useUserStore ∅ (mirror_of "null")).2 in
  loginStatus w = true /\ userInfo w = JNull /\
  sessionStorage w !! "userInfo" = None /\
  sessionStorage w !! "loginStatus" = None.
Proof. vm_compute. auto. Qed.

(** A sign-out whose API call rejects, after a sign-in. *)
Example logout_after_signin :
  let w := after (signin remember_amy (Resolved amy_response) 0) (fresh ∅ ∅) in
  logout (Rejects (ApiFailure "offline")) None None w
  = (Returned true,
     mkWorld JNull false false ∅ ∅
       (trace w ++
        [EConsole "Logging out...";
         EConsole "Updating user state:";
         ERemoveItem LocalStorage "userInfo";
         ERemoveItem LocalStorage "loginStatus";
         ERemoveItem SessionStorage "userInfo";
         ERemoveItem SessionStorage "loginStatus";
         ECookie "token=;expires=Thu, 01 Jan 1970 00:00:00 GMT;path=/";
         ECookie "refresh_token=;expires=Thu, 01 Jan 1970 00:00:00 GMT;path=/";
         ECookie "sessionid=;expires=Thu, 01 Jan 1970 00:00:00 GMT;path=/";
         EApi "apiUserLogout";
         EConsole "Backend logout API call failed, but local logout successful";
         ENotify "已成功登出";
         ENavigate "/"])).
Proof. vm_compute. reflexivity. Qed.

(** The areas of the examples are within their quotas, and the persistent
    one has no room for the mirror. *)
Example crowded_is_full :
  storage_fits (Platform := cramped) LocalStorage crowded = true /\
  storage_fits (Platform := cramped) SessionStorage (mirror_of amy_text) = true /\
  storage_fits (Platform := cramped) LocalStorage
    (<["userInfo" := amy_text]> crowded) = false.
Proof. vm_compute. auto. Qed.

(** C1 fails as stated: with no room left in [localStorage], the first
    [setItem] of [updateUserState] throws and neither scope holds the user. *)
Lemma updateUserState_over_quota :
  let w' := after (updateUserState (P := cramped) (user_val amy) true) (fresh crowded ∅) in
  result (updateUserState (P := cramped) (user_val amy) true) (fresh crowded ∅)
    = Thrown QuotaExceededError /\
  localStorage w' !! "userInfo" = None /\
  sessionStorage w' !! "userInfo" = None.
Proof. vm_compute. auto. Qed.


(** C3 fails as stated: on a successful response, with no room left in
    [localStorage], [signin] throws after it has assigned the cookie. *)
Lemma signin_over_quota :
  let w := fresh crowded ∅ in
  success amy_response = true /\
  result (signin (P := cramped) remember_amy (Resolved amy_response) 0) w
    = Thrown QuotaExceededError /\
  cookie_writes (emitted (signin (P := cramped) remember_amy (Resolved amy_response) 0) w)
    = ["token=t0k3n;path=/;expires=Sat, 31 Jan 1970 00:00:00 GMT"] /\
  localStorage (after (signin (P := cramped) remember_amy (Resolved amy_response) 0) w)
    !! "userInfo" = None.
Proof. vm_compute. auto. Qed.

Lemma updateUserState_writes_both_scopes_witness :
  let w' := after (updateUserState (user_val amy) false) (fresh ∅ ∅) in
  localStorage w' !! "userInfo" = Some amy_text /\
  localStorage w' !! "loginStatus" = Some "true" /\
  sessionStorage w' !! "userInfo" = Some amy_text /\
  sessionStorage w' !! "loginStatus" = Some "true".
Proof.
  assert (Hr : result (updateUserState (user_val amy) false) (fresh ∅ ∅) = Returned tt)
    by (vm_compute; reflexivity).
  destruct (updateUserState_writes_both_scopes amy false (fresh ∅ ∅)) as [H _].
  exact (H Hr).
Defined.

Lemma signin_success_witness :
  let w := (useUserStore ∅ ∅).2 in
  result (signin remember_amy (Resolved amy_response) 0) w = Returned true /\
  cookie_writes (emitted (signin remember_amy (Resolved amy_response) 0) w)
    = ["token=t0k3n;path=/;expires=Sat, 31 Jan 1970 00:00:00 GMT"] /\
  sessionStorage (after (signin remember_amy (Resolved amy_response) 0) w)
    !! "userInfo" = Some amy_text.
Proof.
  cbv zeta.
  assert (Hw : result (updateUserState (user_val amy) true) (useUserStore ∅ ∅).2
               = Returned tt) by (vm_compute; reflexivity).
  destruct (signin_success remember_amy amy_response 0 (useUserStore ∅ ∅).2 eq_refl Hw)
    as (Hr & (rest & Hc & Hnone & _) & _ & _ & _ & _ & _ & Hs & _).
  split; [exact Hr|]. split; [|exact Hs].
  rewrite Hc, (Hnone eq_refl). reflexivity.
Defined.

Lemma signin_failure_response_witness :
  let w := mkWorld (user_val amy) true true (mirror_of amy_text) ∅ [] in
  result (signin remember_amy (Resolved refused) 0) w = Returned false /\
  userInfo (after (signin remember_amy (Resolved refused) 0) w) = user_val amy /\
  isLoading (after (signin remember_amy (Resolved refused) 0) w) = false.
Proof.
  cbv zeta.
  destruct (signin_failure_response remember_amy refused 0
              (mkWorld (user_val amy) true true (mirror_of amy_text) ∅ []) eq_refl)
    as (Hr & Hu & _ & _ & _ & _ & _ & Hi).
  auto.
Defined.


Lemma malformed_persistent_mirror_discarded_witness :
  let w' := (useUserStore (mirror_of "{oops") ∅).2 in
  localStorage w' !! "userInfo" = None /\
  localStorage w' !! "loginStatus" = None /\
  userInfo w' = JNull /\ loginStatus w' = false.
Proof.
  cbv zeta.
  destruct (malformed_persistent_mirror_discarded (mirror_of "{oops") ∅ "{oops")
    as (_ & H); [vm_compute; reflexivity ..|exact H].
Defined.

Lemma session_restore_promotes_witness :
  localStorage (after initializeUserState (fresh ∅ (mirror_of amy_text)))
    !! "userInfo" = Some amy_text /\
  localStorage (after initializeUserState (fresh ∅ (mirror_of amy_text)))
    !! "loginStatus" = Some "true".
Proof.
  assert (Hs : valid_mirror (sessionStorage (fresh ∅ (mirror_of amy_text)))
               = Some (user_val amy)) by (vm_compute; reflexivity).
  assert (Hr : result (updateUserState (user_val amy) true)
                  (fresh ∅ (mirror_of amy_text)) = Returned tt)
    by (vm_compute; reflexivity).
  exact (session_restore_promotes (fresh ∅ (mirror_of amy_text)) (user_val amy)
           Hs eq_refl Hr).
Defined.

(** C8 fails as stated: after setup on empty storages, [setLoginStatus(true)]
    leaves [loginStatus = true] with [userInfo = null]. *)
Lemma setLoginStatus_breaks_invariant :
  ~ (forall w : World, reachable any_call w -> authenticated_has_user w).
Proof.
  intros H.
  assert (Hr : reachable any_call
                 (run (OpSetLoginStatus true None)
                    (run OpInitializeUserState (fresh ∅ ∅)))).
  { apply reach_step; [apply reach_setup|]; exact I. }
  assert (Hl : loginStatus (run (OpSetLoginStatus true None)
                              (run OpInitializeUserState (fresh ∅ ∅))) = true)
    by (vm_compute; reflexivity).
  pose proof (H _ Hr Hl) as Hc. vm_compute in Hc. discriminate Hc.
Qed.

Lemma consistent_calls_keep_invariant_witness :
  authenticated_has_user
    (run (OpSignin remember_amy (Resolved amy_response) 0)
       (run OpInitializeUserState (fresh ∅ ∅))).
Proof.
  apply consistent_calls_keep_invariant.
  apply reach_step; [apply reach_setup|exact I].
  intros (v & _ & Hv). cbn [sessionStorage localStorage fresh] in Hv.
  rewrite valid_mirror_empty in Hv. discriminate Hv.
Defined.

Lemma displayName_of_user_witness :
  displayName (mkWorld (user_val amy) true false ∅ ∅ []) = JStr "Amy Lin".
Proof.
  exact (displayName_of_user amy (mkWorld (user_val amy) true false ∅ ∅ []) eq_refl).
Defined.

Lemma displayName_follows_session_witness :
  displayName (after (signin plain_amy (Resolved amy_response) 0) (fresh ∅ ∅))
  = JStr "Amy Lin".
Proof.
  destruct displayName_follows_session as (_ & _ & _ & H).
  exact (H plain_amy amy_response 0 (fresh ∅ ∅) eq_refl).
Defined.

Lemma signin_forced_write_is_redundant_witness :
  sessionStorage (after (signin plain_amy (Resolved amy_response) 0) (fresh ∅ ∅))
  = sessionStorage (after (updateUserState (user_val amy) true) (fresh ∅ ∅)).
Proof.
  apply (signin_forced_write_is_redundant plain_amy amy_response 0 (fresh ∅ ∅) eq_refl).
Defined.

Lemma last_update_wins_witness :
  localStorage (after (updateUserState JNull false)
                  (after (updateUserState (user_val amy) true) (fresh ∅ ∅)))
  = localStorage (after (updateUserState JNull false) (fresh ∅ ∅)).
Proof.
  assert (H1 : result (updateUserState JNull false)
                  (after (updateUserState (user_val amy) true) (fresh ∅ ∅))
               = Returned tt) by (vm_compute; reflexivity).
  assert (H2 : result (updateUserState JNull false) (fresh ∅ ∅) = Returned tt)
    by (vm_compute; reflexivity).
  destruct (last_update_wins (user_val amy) JNull true false (fresh ∅ ∅) H1 H2)
    as (_ & _ & _ & Hl & _).
  exact Hl.
Defined.

Lemma update_survives_reload_witness :
  userInfo (reload (after (updateUserState (user_val amy) false) (fresh ∅ ∅)))
    = user_val amy /\
  loginStatus (reload (after (updateUserState (user_val amy) false) (fresh ∅ ∅)))
    = true.
Proof.
  apply update_survives_reload; vm_compute; reflexivity.
Defined.

Lemma signin_survives_restart_witness :
  userInfo (restart (after (signin plain_amy (Resolved amy_response) 0) (fresh ∅ ∅)))
    = user_val amy /\
  loginStatus (restart (after (signin plain_amy (Resolved amy_response) 0) (fresh ∅ ∅)))
    = true.
Proof.
  apply (signin_survives_restart plain_amy amy_response 0 (fresh ∅ ∅));
    vm_compute; reflexivity.
Defined.

Lemma other_keys_are_untouched_witness :
  localStorage (run (OpLogout Resolves None None)
                  (fresh (<["theme" := "dark"]> (mirror_of amy_text)) ∅))
    !! "theme"
  = Some "dark".
Proof.
  destruct (other_keys_are_untouched (OpLogout Resolves None None)
              (fresh (<["theme" := "dark"]> (mirror_of amy_text)) ∅) "theme")
    as [H _]; [discriminate ..|].
  rewrite H. vm_compute. reflexivity.
Defined.

Lemma synchronizing_calls_authenticate_user_witness :
  user_is_authenticated
    (run (OpCheckLoginStatus (Resolved amy_session))
       (run OpInitializeUserState (fresh ∅ ∅))).
Proof.
  apply synchronizing_calls_authenticate_user.
  apply reach_step; [apply reach_setup|]; exact I.
Defined.

Lemma malformed_session_mirror_stays_witness :
  sessionStorage (useUserStore (mirror_of "{oops") (mirror_of "[1,")).2
  = mirror_of "[1,".
Proof.
  assert (Hs : valid_mirror (mirror_of "[1,") = None) by (vm_compute; reflexivity).
  assert (Hp : JSON_parse "{oops" = None) by (vm_compute; reflexivity).
  exact (malformed_session_mirror_stays (mirror_of "{oops") (mirror_of "[1,")
           "{oops" Hs eq_refl eq_refl Hp).
Defined.

Lemma falsy_mirror_restores_once_witness :
  loginStatus (useUserStore ∅ (mirror_of "null")).2 = true /\
  loginStatus (reload (useUserStore ∅ (mirror_of "null")).2) = false.
Proof.
  assert (Hs : valid_mirror (mirror_of "null") = Some JNull) by (vm_compute; reflexivity).
  destruct (falsy_mirror_restores_once ∅ (mirror_of "null") JNull (or_introl Hs) eq_refl)
    as ((_ & H1) & (_ & H2)).
  auto.
Defined.

Lemma empty_refresh_is_not_written_witness :
  cookie_writes (emitted (signin plain_amy (Resolved blank_refresh) 0) (fresh ∅ ∅))
  = ["token=t0k3n;path=/;expires="].
Proof.
  exact (empty_refresh_is_not_written plain_amy blank_refresh 0 (fresh ∅ ∅)
           eq_refl eq_refl).
Defined.

Lemma signin_write_failure_witness :
  result (signin (P := cramped) plain_amy (Resolved amy_response) 0) (fresh crowded ∅)
    = Thrown QuotaExceededError /\
  loginStatus (after (signin (P := cramped) plain_amy (Resolved amy_response) 0)
                 (fresh crowded ∅)) = true.
Proof.
  assert (Hw : result (updateUserState (P := cramped) (user_val amy) true)
                 (fresh crowded ∅) <> Returned tt)
    by (vm_compute; discriminate).
  destruct (signin_write_failure (P := cramped) plain_amy amy_response 0
              (fresh crowded ∅) eq_refl Hw) as (Hr & _ & _ & Hl & _).
  auto.
Defined.



End UserStore.
